(** * MAGE: the light-buffer pass ([LBufferPass]) and its shadow-map buffers

    A shallow embedding of [LBufferPass] (lbuffer_pass.cpp) and of the
    shadow-map buffer wrappers (shadow_map_buffer.hpp).  GPU objects are
    handles handed out by a device, member functions thread the pass, the
    device and the immediate device context through a state-and-exception
    monad, and the per-light loops are folds that push onto local vectors. *)

From stdpp Require Import base list gmap.
From Stdlib Require Import ZArith.

Local Open Scope Z_scope.
Local Open Scope nat_scope.

(** ** External interfaces *)

(** DirectXMath, as the pass uses it.  The library is an external
    collaborator working on IEEE floats; the pass only routes its results,
    so the operations stay uninterpreted. *)
Class DirectXMath := {
  F32 : Type;
  RGB : Type;
  XMFLOAT3 : Type;
  XMVECTOR : Type;
  XMMATRIX : Type;
  F32_one : F32;
  F32_div : F32 → F32 → F32;
  F32_neg : F32 → F32;
  XM_PI : F32;
  XM_PIDIV2 : F32;
  XMVectorNegate : XMVECTOR → XMVECTOR;
  XMVector3Normalize : XMVECTOR → XMVECTOR;
  XMVector3TransformNormal : XMVECTOR → XMMATRIX → XMVECTOR;
  XMVector3TransformCoord : XMVECTOR → XMMATRIX → XMVECTOR;
  XMStoreFloat3 : XMVECTOR → XMFLOAT3;
  XMMatrixIdentity : XMMATRIX;
  XMMatrixMultiply : XMMATRIX → XMMATRIX → XMMATRIX;
  XMMatrixTranspose : XMMATRIX → XMMATRIX;
  XMMatrixRotationX : F32 → XMMATRIX;
  XMMatrixRotationY : F32 → XMMATRIX;
}.

(** [ViewFrustum::Cull] and the bounding volumes it tests
    (math\view_frustum.hpp is missing): the two overloads the pass calls are
    parameters, [true] meaning that the light is rejected. *)
Class ViewFrustum `{DirectXMath} := {
  BS : Type;
  AABB : Type;
  Cull_BS : XMMATRIX → BS → bool;
  Cull_AABB : XMMATRIX → AABB → bool;
}.

(** The slot numbers the pass binds to (hlsl.hpp is missing): parameters. *)
Class HLSLBindings := {
  SLOT_CBUFFER_LIGHTING : nat;
  SLOT_SRV_LIGHTS_START : nat;
  SLOT_SRV_SHADOW_MAPS_START : nat;
}.

(** ** Exceptions and the state monad *)

Inductive Exception := ResourceCreationFailed.

Inductive outcome (A : Type) :=
  | Returned (a : A)
  | Thrown (e : Exception).
Arguments Returned {A} a.
Arguments Thrown {A} e.

(** A computation over a state [S]: it returns or throws, and the state it
    leaves behind is observable in both cases. *)
Definition M (S A : Type) : Type := S → outcome A * S.

Definition ret {S A} (a : A) : M S A := λ s, (Returned a, s).

Definition bind {S A B} (m : M S A) (k : A → M S B) : M S B :=
  λ s, match m s with
       | (Returned a, s') => k a s'
       | (Thrown e, s') => (Thrown e, s')
       end.

Definition get {S} : M S S := λ s, (Returned s, s).
Definition modify {S} (f : S → S) : M S unit := λ s, (Returned tt, f s).

Declare Scope cpp_scope.
Delimit Scope cpp_scope with cpp.
Notation "'call' x := m 'in' k" := (bind m (λ x, k))
  (at level 10, x name, m at level 100, k at level 200) : cpp_scope.
Notation "m ';;;' k" := (bind m (λ _, k))
  (at level 100, k at level 200, right associativity) : cpp_scope.
Local Open Scope cpp_scope.

(** ** GPU resources *)

Definition handle := nat.

(** The device.  Each creation request either fails (the wrappers throw on a
    failed HRESULT) or yields fresh handles; [dev_fails k] says whether the
    [k]-th request made of this device fails, so every failure pattern of
    the driver is some device. *)
Record Device := {
  dev_fails : nat → bool;
  dev_requests : nat;
  dev_next_handle : handle;
}.

Definition CreateResources (n : nat) : M Device handle :=
  λ d, if dev_fails d (dev_requests d)
       then (Thrown ResourceCreationFailed,
             {| dev_fails := dev_fails d;
                dev_requests := S (dev_requests d);
                dev_next_handle := dev_next_handle d |})
       else (Returned (dev_next_handle d),
             {| dev_fails := dev_fails d;
                dev_requests := S (dev_requests d);
                dev_next_handle := dev_next_handle d + n |}).

Inductive DepthFormat := D16 | D32.

Definition MAGE_DEFAULT_SHADOW_MAPPED_RESOLUTION : nat := 512.

(** [struct ShadowMapBuffer]: the members the pass reads. *)
Record ShadowMapBuffer := {
  sm_width : nat;
  sm_height : nat;
  sm_format : DepthFormat;
  sm_dsvs : list handle;
  sm_srv : handle;
}.

Definition ShadowMapBuffer_GetNumberOfShadowMaps (b : ShadowMapBuffer) : nat :=
  length (sm_dsvs b).

Definition ShadowMapBuffer_GetSRV (b : ShadowMapBuffer) : handle := sm_srv b.

(** Modelled from the spec: the constructor of [ShadowMapBuffer]
    (shadow_map_buffer.cpp is missing).  The buffer owns a depth-stencil
    array texture with N slices, one view per slice, plus one shared
    shader-resource view over the whole array; construction can fail.  The
    defaults of the arguments are those of the declaration. *)
Definition ShadowMapBuffer_ctor (nb_shadow_maps : nat) : M Device ShadowMapBuffer :=
  call base := CreateResources (nb_shadow_maps + 1) in
  ret {| sm_width := MAGE_DEFAULT_SHADOW_MAPPED_RESOLUTION;
         sm_height := MAGE_DEFAULT_SHADOW_MAPPED_RESOLUTION;
         sm_format := D16;
         sm_dsvs := seq base nb_shadow_maps;
         sm_srv := base + nb_shadow_maps |}.

(** [struct ShadowCubeMapBuffer]. *)
Record ShadowCubeMapBuffer := {
  scm_width : nat;
  scm_height : nat;
  scm_format : DepthFormat;
  scm_dsvs : list handle;
  scm_srv : handle;
}.

Definition ShadowCubeMapBuffer_GetNumberOfShadowMaps (b : ShadowCubeMapBuffer) : nat :=
  length (scm_dsvs b).

Definition ShadowCubeMapBuffer_GetNumberOfShadowCubeMaps (b : ShadowCubeMapBuffer) : nat :=
  length (scm_dsvs b) / 6.

Definition ShadowCubeMapBuffer_GetSRV (b : ShadowCubeMapBuffer) : handle := scm_srv b.

(** Modelled from the spec: the constructor of [ShadowCubeMapBuffer]
    (missing like the one above): N x 6 slices for N cube maps, one view
    per slice, plus one shared shader-resource view. *)
Definition ShadowCubeMapBuffer_ctor (nb_shadow_cube_maps : nat)
    : M Device ShadowCubeMapBuffer :=
  call base := CreateResources (6 * nb_shadow_cube_maps + 1) in
  ret {| scm_width := MAGE_DEFAULT_SHADOW_MAPPED_RESOLUTION;
         scm_height := MAGE_DEFAULT_SHADOW_MAPPED_RESOLUTION;
         scm_format := D16;
         scm_dsvs := seq base (6 * nb_shadow_cube_maps);
         scm_srv := base + 6 * nb_shadow_cube_maps |}.

Inductive D3D11_MAP := D3D11_MAP_WRITE_DISCARD.

(** What [ConstantBuffer::UpdateData] does to its buffer, step by step: a
    [BufferLock] on the buffer is constructed, the [BufferLock] is
    destroyed, data are copied through the pointer of the mapping. *)
Inductive BufferAccess (DataT : Type) :=
  | Locked (map_type : D3D11_MAP)
  | Unlocked
  | Copied (data : DataT).
Arguments Locked {DataT} map_type.
Arguments Unlocked {DataT}.
Arguments Copied {DataT} data.

(** [ConstantBuffer< DataT >] (constant_buffer.tpp): [m_buffer], and the
    accesses made to the buffer so far, oldest first.  What the buffer holds
    on the GPU is not modelled: the accesses are what the source does, and
    they say when each copy is made with respect to the lock. *)
Record ConstantBuffer (DataT : Type) := {
  cb_buffer : handle;
  cb_accesses : list (BufferAccess DataT);
}.
Arguments cb_buffer {DataT} _.
Arguments cb_accesses {DataT} _.

Definition ConstantBuffer_ctor {DataT} : M Device (ConstantBuffer DataT) :=
  call buffer := CreateResources 1 in
  ret {| cb_buffer := buffer; cb_accesses := [] |}.

(** Modelled from the spec: [BufferLock] (its header is missing).  Mapping
    and unmapping a buffer are not among the failures of the pass, so the
    constructor and the destructor return; each is recorded as an access
    and given no other meaning. *)
Definition BufferLock_ctor {DataT} (map_type : D3D11_MAP)
    (b : ConstantBuffer DataT) : ConstantBuffer DataT :=
  {| cb_buffer := cb_buffer b; cb_accesses := cb_accesses b ++ [Locked map_type] |}.

Definition BufferLock_dtor {DataT} (b : ConstantBuffer DataT) : ConstantBuffer DataT :=
  {| cb_buffer := cb_buffer b; cb_accesses := cb_accesses b ++ [Unlocked] |}.

(** [memcpy(mapped_buffer.pData, &data, sizeof(DataT))]. *)
Definition memcpy {DataT} (data : DataT) (b : ConstantBuffer DataT)
    : ConstantBuffer DataT :=
  {| cb_buffer := cb_buffer b; cb_accesses := cb_accesses b ++ [Copied data] |}.

(** [ConstantBuffer::UpdateData].  The [BufferLock] is an unnamed temporary
    of an expression statement: it is constructed and destroyed within that
    statement, and the [memcpy] of the next statement runs once the lock is
    gone. *)
Definition ConstantBuffer_UpdateData {DataT} (data : DataT)
    (b : ConstantBuffer DataT) : ConstantBuffer DataT :=
  let locked := BufferLock_ctor D3D11_MAP_WRITE_DISCARD b in
  let unlocked := BufferLock_dtor locked in
  memcpy data unlocked.

Definition ConstantBuffer_Get {DataT} (b : ConstantBuffer DataT) : handle :=
  cb_buffer b.

(** The data handed to [memcpy] so far, oldest first. *)
Definition ConstantBuffer_copies {DataT} (b : ConstantBuffer DataT) : list DataT :=
  omap (λ access, match access with Copied data => Some data | _ => None end)
       (cb_accesses b).

(** [StructuredBuffer< DataT >]: its view, the room it has, the elements
    on the GPU and the number of elements in use. *)
Record StructuredBuffer (DataT : Type) := {
  sb_srv : handle;
  sb_nb_data_elements : nat;
  sb_data : list DataT;
  sb_size : nat;
}.
Arguments sb_srv {DataT} _.
Arguments sb_nb_data_elements {DataT} _.
Arguments sb_data {DataT} _.
Arguments sb_size {DataT} _.

(** Modelled from the spec: [StructuredBuffer] (its header and template
    file are missing).  Constructed with room for a given number of
    elements and none in use. *)
Definition StructuredBuffer_ctor {DataT} (nb_initial_data_elements : nat)
    : M Device (StructuredBuffer DataT) :=
  call srv := CreateResources 1 in
  ret {| sb_srv := srv;
         sb_nb_data_elements := nb_initial_data_elements;
         sb_data := [];
         sb_size := 0 |}.

(** Modelled from the spec: [StructuredBuffer::UpdateData] is a full
    replace; the buffer has room for at least max(1, count) elements; when
    the count is 0 the data of the previous frame persists, and only the
    element count says so.  The spec describes no failure of an update, and
    the model has none. *)
Definition StructuredBuffer_UpdateData {DataT} (data : list DataT)
    (b : StructuredBuffer DataT) : StructuredBuffer DataT :=
  {| sb_srv := sb_srv b;
     sb_nb_data_elements := Nat.max (sb_nb_data_elements b) (length data);
     sb_data := match data with [] => sb_data b | _ => data end;
     sb_size := length data |}.

(** Modelled from the spec: [StructuredBuffer::size], the element count
    that goes into the count fields of the aggregate light buffer. *)
Definition StructuredBuffer_size {DataT} (b : StructuredBuffer DataT) : nat :=
  sb_size b.

Definition StructuredBuffer_Get {DataT} (b : StructuredBuffer DataT) : handle :=
  sb_srv b.

(** The elements in use: shading reads the buffer in a loop bounded by the
    element count, so these are the first [size()] elements on the GPU. *)
Definition StructuredBuffer_elements {DataT} (b : StructuredBuffer DataT)
    : list DataT :=
  take (sb_size b) (sb_data b).

(** ** The scene and the packed elements *)

Section Pass.
Context {DX : DirectXMath} {VF : ViewFrustum} {SLOTS : HLSLBindings}.

(** [TransformNode]: the four getters the pass calls. *)
Record TransformNode := {
  GetWorldForward : XMVECTOR;
  GetWorldEye : XMVECTOR;
  GetObjectToWorldMatrix : XMMATRIX;
  GetWorldToObjectMatrix : XMMATRIX;
}.

(** The camera of a light that casts shadows. *)
Record LightCameraSettings := {
  GetViewToProjectionMatrix : XMMATRIX;
}.

Record DirectionalLight := {
  dl_GetIntensity : RGB;
}.

Record OmniLight := {
  ol_GetIntensity : RGB;
  ol_GetBS : BS;
  ol_GetEndDistanceFalloff : F32;
  ol_GetRangeDistanceFalloff : F32;
  ol_GetLightCamera : LightCameraSettings;
}.

Record SpotLight := {
  sl_GetIntensity : RGB;
  sl_GetAABB : AABB;
  sl_GetExponentProperty : F32;
  sl_GetEndDistanceFalloff : F32;
  sl_GetRangeDistanceFalloff : F32;
  sl_GetEndAngularCutoff : F32;
  sl_GetRangeAngularCutoff : F32;
  sl_GetLightCamera : LightCameraSettings;
}.

Record DirectionalLightNode := {
  dn_GetTransform : TransformNode;
  dn_GetLight : DirectionalLight;
}.

Record OmniLightNode := {
  on_GetTransform : TransformNode;
  on_GetLight : OmniLight;
}.

Record SpotLightNode := {
  sn_GetTransform : TransformNode;
  sn_GetLight : SpotLight;
}.

Record Fog := {
  fog_GetIntensity : RGB;
  fog_GetStartDistanceFalloff : F32;
  fog_GetRangeDistanceFalloff : F32;
}.

(** [PassBuffer]: what the pass reads of the scene. *)
Record PassBuffer := {
  GetDirectionalLights : list DirectionalLightNode;
  GetOmniLights : list OmniLightNode;
  GetSpotLights : list SpotLightNode;
  GetDirectionalLightsWithShadowMapping : list DirectionalLightNode;
  GetOmniLightsWithShadowMapping : list OmniLightNode;
  GetSpotLightsWithShadowMapping : list SpotLightNode;
  GetAmbientLight : RGB;
  GetFog : Fog;
}.

Record LightCamera := {
  world_to_lprojection : XMMATRIX;
  world_to_lview : XMMATRIX;
  lview_to_lprojection : XMMATRIX;
}.

Record DirectionalLightBuffer := {
  dlb_neg_d : XMFLOAT3;
  dlb_I : RGB;
}.

Record OmniLightBuffer := {
  olb_p : XMFLOAT3;
  olb_I : RGB;
  olb_distance_falloff_end : F32;
  olb_distance_falloff_inv_range : F32;
}.

Record SpotLightBuffer := {
  slb_p : XMFLOAT3;
  slb_neg_d : XMFLOAT3;
  slb_I : RGB;
  slb_exponent_property : F32;
  slb_distance_falloff_end : F32;
  slb_distance_falloff_inv_range : F32;
  slb_cos_umbra : F32;
  slb_cos_inv_range : F32;
}.

Record DirectionalLightWithShadowMappingBuffer := {
  dsm_light : DirectionalLightBuffer;
}.

Record OmniLightWithShadowMappingBuffer := {
  osm_light : OmniLightBuffer;
  osm_cview_to_lview : XMMATRIX;
}.

Record SpotLightWithShadowMappingBuffer := {
  ssm_light : SpotLightBuffer;
  ssm_cview_to_lprojection : XMMATRIX;
}.

(** The count fields are [uint32_t]; the sizes they come from are
    [size_t]. *)
Definition static_cast_uint32_t (n : nat) : Z := (Z.of_nat n mod 2 ^ 32)%Z.

Record LightBuffer := {
  lb_Ia : RGB;
  lb_fog_color : RGB;
  lb_fog_distance_falloff_start : F32;
  lb_fog_distance_falloff_inv_range : F32;
  lb_nb_directional_lights : Z;
  lb_nb_omni_lights : Z;
  lb_nb_spot_lights : Z;
  lb_nb_sm_directional_lights : Z;
  lb_nb_sm_omni_lights : Z;
  lb_nb_sm_spot_lights : Z;
}.

(** ** The per-light loops

    Each loop is a left fold over the light list in enumeration order;
    [push_back] appends and [continue] returns the vectors untouched. *)

Definition push_back {A} (v : list A) (x : A) : list A := v ++ [x].

Definition ProcessLights_directional_loop
    (lights : list DirectionalLightNode) (world_to_view : XMMATRIX)
    : list DirectionalLightBuffer :=
  fold_left (λ buffer node,
    let transform := dn_GetTransform node in
    let light := dn_GetLight node in
    let d := XMVector3Normalize
               (XMVector3TransformNormal (GetWorldForward transform) world_to_view) in
    let light_buffer :=
      {| dlb_neg_d := XMStoreFloat3 (XMVectorNegate d);
         dlb_I := dl_GetIntensity light |} in
    push_back buffer light_buffer) lights [].

Definition ProcessLights_omni_loop
    (lights : list OmniLightNode) (world_to_projection world_to_view : XMMATRIX)
    : list OmniLightBuffer :=
  fold_left (λ buffer node,
    let transform := on_GetTransform node in
    let light := on_GetLight node in
    let object_to_world := GetObjectToWorldMatrix transform in
    let object_to_projection := XMMatrixMultiply object_to_world world_to_projection in
    if Cull_BS object_to_projection (ol_GetBS light) then buffer
    else
      let p := XMVector3TransformCoord (GetWorldEye transform) world_to_view in
      let light_buffer :=
        {| olb_p := XMStoreFloat3 p;
           olb_I := ol_GetIntensity light;
           olb_distance_falloff_end := ol_GetEndDistanceFalloff light;
           olb_distance_falloff_inv_range :=
             F32_div F32_one (ol_GetRangeDistanceFalloff light) |} in
      push_back buffer light_buffer) lights [].

Definition ProcessLights_spot_loop
    (lights : list SpotLightNode) (world_to_projection world_to_view : XMMATRIX)
    : list SpotLightBuffer :=
  fold_left (λ buffer node,
    let transform := sn_GetTransform node in
    let light := sn_GetLight node in
    let object_to_world := GetObjectToWorldMatrix transform in
    let object_to_projection := XMMatrixMultiply object_to_world world_to_projection in
    if Cull_AABB object_to_projection (sl_GetAABB light) then buffer
    else
      let p := XMVector3TransformCoord (GetWorldEye transform) world_to_view in
      let d := XMVector3Normalize
                 (XMVector3TransformNormal (GetWorldForward transform) world_to_view) in
      let light_buffer :=
        {| slb_p := XMStoreFloat3 p;
           slb_neg_d := XMStoreFloat3 (XMVectorNegate d);
           slb_I := sl_GetIntensity light;
           slb_exponent_property := sl_GetExponentProperty light;
           slb_distance_falloff_end := sl_GetEndDistanceFalloff light;
           slb_distance_falloff_inv_range :=
             F32_div F32_one (sl_GetRangeDistanceFalloff light);
           slb_cos_umbra := sl_GetEndAngularCutoff light;
           slb_cos_inv_range :=
             F32_div F32_one (sl_GetRangeAngularCutoff light) |} in
      push_back buffer light_buffer) lights [].

(** The loops of the three [ProcessLightsWithShadowMapping] overloads keep
    two local vectors, [buffer] and [cameras]. *)
Definition ProcessLightsWithShadowMapping_directional_loop
    (lights : list DirectionalLightNode) (world_to_view view_to_world : XMMATRIX)
    : list DirectionalLightWithShadowMappingBuffer * list LightCamera :=
  fold_left (λ '(buffer, cameras) node,
    let transform := dn_GetTransform node in
    let light := dn_GetLight node in
    let d := XMVector3Normalize
               (XMVector3TransformNormal (GetWorldForward transform) world_to_view) in
    let light_buffer :=
      {| dsm_light := {| dlb_neg_d := XMStoreFloat3 (XMVectorNegate d);
                         dlb_I := dl_GetIntensity light |} |} in
    (push_back buffer light_buffer, cameras)) lights ([], []).

Definition rotations : list XMMATRIX :=
  [ XMMatrixRotationY XM_PIDIV2;
    XMMatrixRotationY (F32_neg XM_PIDIV2);
    XMMatrixRotationX (F32_neg XM_PIDIV2);
    XMMatrixRotationX XM_PIDIV2;
    XMMatrixIdentity;
    XMMatrixRotationY XM_PI ].

Definition ProcessLightsWithShadowMapping_omni_loop
    (lights : list OmniLightNode)
    (world_to_projection world_to_view view_to_world : XMMATRIX)
    : list OmniLightWithShadowMappingBuffer * list LightCamera :=
  fold_left (λ '(buffer, cameras) node,
    let transform := on_GetTransform node in
    let light := on_GetLight node in
    let object_to_world := GetObjectToWorldMatrix transform in
    let object_to_projection := XMMatrixMultiply object_to_world world_to_projection in
    if Cull_BS object_to_projection (ol_GetBS light) then (buffer, cameras)
    else
      let world_to_lview0 := GetWorldToObjectMatrix transform in
      let lview_to_lprojection0 :=
        GetViewToProjectionMatrix (ol_GetLightCamera light) in
      let cameras :=
        fold_left (λ cameras rotation,
          let camera_world_to_lview := XMMatrixMultiply world_to_lview0 rotation in
          let camera :=
            {| world_to_lview := camera_world_to_lview;
               lview_to_lprojection := lview_to_lprojection0;
               world_to_lprojection :=
                 XMMatrixMultiply camera_world_to_lview lview_to_lprojection0 |} in
          push_back cameras camera) rotations cameras in
      let cview_to_lview := XMMatrixMultiply view_to_world world_to_lview0 in
      let p := XMVector3TransformCoord (GetWorldEye transform) world_to_view in
      let light_buffer :=
        {| osm_light :=
             {| olb_p := XMStoreFloat3 p;
                olb_I := ol_GetIntensity light;
                olb_distance_falloff_end := ol_GetEndDistanceFalloff light;
                olb_distance_falloff_inv_range :=
                  F32_div F32_one (ol_GetRangeDistanceFalloff light) |};
           osm_cview_to_lview := XMMatrixTranspose cview_to_lview |} in
      (push_back buffer light_buffer, cameras)) lights ([], []).

Definition ProcessLightsWithShadowMapping_spot_loop
    (lights : list SpotLightNode)
    (world_to_projection world_to_view view_to_world : XMMATRIX)
    : list SpotLightWithShadowMappingBuffer * list LightCamera :=
  fold_left (λ '(buffer, cameras) node,
    let transform := sn_GetTransform node in
    let light := sn_GetLight node in
    let object_to_world := GetObjectToWorldMatrix transform in
    let object_to_projection := XMMatrixMultiply object_to_world world_to_projection in
    if Cull_AABB object_to_projection (sl_GetAABB light) then (buffer, cameras)
    else
      let camera_world_to_lview := GetWorldToObjectMatrix transform in
      let camera_lview_to_lprojection :=
        GetViewToProjectionMatrix (sl_GetLightCamera light) in
      let camera :=
        {| world_to_lview := camera_world_to_lview;
           lview_to_lprojection := camera_lview_to_lprojection;
           world_to_lprojection :=
             XMMatrixMultiply camera_world_to_lview camera_lview_to_lprojection |} in
      let cview_to_lprojection :=
        XMMatrixMultiply view_to_world (world_to_lprojection camera) in
      let cameras := push_back cameras camera in
      let p := XMVector3TransformCoord (GetWorldEye transform) world_to_view in
      let d := XMVector3Normalize
                 (XMVector3TransformNormal (GetWorldForward transform) world_to_view) in
      let light_buffer :=
        {| ssm_light :=
             {| slb_p := XMStoreFloat3 p;
                slb_neg_d := XMStoreFloat3 (XMVectorNegate d);
                slb_I := sl_GetIntensity light;
                slb_exponent_property := sl_GetExponentProperty light;
                slb_distance_falloff_end := sl_GetEndDistanceFalloff light;
                slb_distance_falloff_inv_range :=
                  F32_div F32_one (sl_GetRangeDistanceFalloff light);
                slb_cos_umbra := sl_GetEndAngularCutoff light;
                slb_cos_inv_range :=
                  F32_div F32_one (sl_GetRangeAngularCutoff light) |};
           ssm_cview_to_lprojection := XMMatrixTranspose cview_to_lprojection |} in
      (push_back buffer light_buffer, cameras)) lights ([], []).

(** ** The immediate device context *)

Inductive Stage := PS | CS.

(** The bindings of the pixel and of the compute stage, slot by slot.  A
    slot bound to a null view is empty. *)
Record DeviceContext := {
  ps_cbuffers : gmap nat handle;
  ps_srvs : gmap nat handle;
  cs_cbuffers : gmap nat handle;
  cs_srvs : gmap nat handle;
}.

Fixpoint bind_views (start_slot : nat) (srvs : list (option handle))
    (slots : gmap nat handle) : gmap nat handle :=
  match srvs with
  | [] => slots
  | srv :: srvs' =>
      bind_views (S start_slot) srvs'
        (match srv with
         | Some view => <[start_slot := view]> slots
         | None => delete start_slot slots
         end)
  end.

(** Modelled from the spec: the binders of [Pipeline::PS] and
    [Pipeline::CS] (pipeline.hpp is missing) are pure state-setting on the
    context and always succeed. *)
Definition BindSRVs (stage : Stage) (start_slot : nat)
    (srvs : list (option handle)) (ctx : DeviceContext) : DeviceContext :=
  match stage with
  | PS => {| ps_cbuffers := ps_cbuffers ctx;
             ps_srvs := bind_views start_slot srvs (ps_srvs ctx);
             cs_cbuffers := cs_cbuffers ctx; cs_srvs := cs_srvs ctx |}
  | CS => {| ps_cbuffers := ps_cbuffers ctx; ps_srvs := ps_srvs ctx;
             cs_cbuffers := cs_cbuffers ctx;
             cs_srvs := bind_views start_slot srvs (cs_srvs ctx) |}
  end.

Definition BindConstantBuffer (stage : Stage) (slot : nat) (buffer : handle)
    (ctx : DeviceContext) : DeviceContext :=
  match stage with
  | PS => {| ps_cbuffers := <[slot := buffer]> (ps_cbuffers ctx);
             ps_srvs := ps_srvs ctx;
             cs_cbuffers := cs_cbuffers ctx; cs_srvs := cs_srvs ctx |}
  | CS => {| ps_cbuffers := ps_cbuffers ctx; ps_srvs := ps_srvs ctx;
             cs_cbuffers := <[slot := buffer]> (cs_cbuffers ctx);
             cs_srvs := cs_srvs ctx |}
  end.

Definition bound_srv (stage : Stage) (ctx : DeviceContext) (slot : nat)
    : option handle :=
  match stage with PS => ps_srvs ctx !! slot | CS => cs_srvs ctx !! slot end.

Definition bound_cbuffer (stage : Stage) (ctx : DeviceContext) (slot : nat)
    : option handle :=
  match stage with PS => ps_cbuffers ctx !! slot | CS => cs_cbuffers ctx !! slot end.

(** What the pass asks of the device and of its context, in the order in
    which it asks. *)
Inductive Event :=
  | EvUpdateConstantBuffer (buffer : handle)
  | EvUpdateStructuredBuffer (srv : handle) (nb_elements : nat)
  | EvBindConstantBuffer (stage : Stage) (slot : nat) (buffer : handle)
  | EvBindSRVs (stage : Stage) (start_slot : nat) (srvs : list (option handle))
  | EvMakeUnique (constructed : bool).

(** ** The pass *)

(** The members of [LBufferPass] in the order of its initialiser list;
    [m_device_context] is the immediate context of the world below. *)
Record LBufferPass := {
  m_light_buffer : ConstantBuffer LightBuffer;
  m_directional_lights : StructuredBuffer DirectionalLightBuffer;
  m_omni_lights : StructuredBuffer OmniLightBuffer;
  m_spot_lights : StructuredBuffer SpotLightBuffer;
  m_sm_directional_lights : StructuredBuffer DirectionalLightWithShadowMappingBuffer;
  m_sm_omni_lights : StructuredBuffer OmniLightWithShadowMappingBuffer;
  m_sm_spot_lights : StructuredBuffer SpotLightWithShadowMappingBuffer;
  m_directional_sms : ShadowMapBuffer;
  m_omni_sms : ShadowCubeMapBuffer;
  m_spot_sms : ShadowMapBuffer;
}.

Definition set_m_light_buffer (x : ConstantBuffer LightBuffer) (p : LBufferPass) :=
  {| m_light_buffer := x;
     m_directional_lights := m_directional_lights p;
     m_omni_lights := m_omni_lights p; m_spot_lights := m_spot_lights p;
     m_sm_directional_lights := m_sm_directional_lights p;
     m_sm_omni_lights := m_sm_omni_lights p;
     m_sm_spot_lights := m_sm_spot_lights p;
     m_directional_sms := m_directional_sms p; m_omni_sms := m_omni_sms p;
     m_spot_sms := m_spot_sms p |}.

Definition set_m_directional_lights x (p : LBufferPass) :=
  {| m_light_buffer := m_light_buffer p;
     m_directional_lights := x;
     m_omni_lights := m_omni_lights p; m_spot_lights := m_spot_lights p;
     m_sm_directional_lights := m_sm_directional_lights p;
     m_sm_omni_lights := m_sm_omni_lights p;
     m_sm_spot_lights := m_sm_spot_lights p;
     m_directional_sms := m_directional_sms p; m_omni_sms := m_omni_sms p;
     m_spot_sms := m_spot_sms p |}.

Definition set_m_omni_lights x (p : LBufferPass) :=
  {| m_light_buffer := m_light_buffer p;
     m_directional_lights := m_directional_lights p;
     m_omni_lights := x; m_spot_lights := m_spot_lights p;
     m_sm_directional_lights := m_sm_directional_lights p;
     m_sm_omni_lights := m_sm_omni_lights p;
     m_sm_spot_lights := m_sm_spot_lights p;
     m_directional_sms := m_directional_sms p; m_omni_sms := m_omni_sms p;
     m_spot_sms := m_spot_sms p |}.

Definition set_m_spot_lights x (p : LBufferPass) :=
  {| m_light_buffer := m_light_buffer p;
     m_directional_lights := m_directional_lights p;
     m_omni_lights := m_omni_lights p; m_spot_lights := x;
     m_sm_directional_lights := m_sm_directional_lights p;
     m_sm_omni_lights := m_sm_omni_lights p;
     m_sm_spot_lights := m_sm_spot_lights p;
     m_directional_sms := m_directional_sms p; m_omni_sms := m_omni_sms p;
     m_spot_sms := m_spot_sms p |}.

Definition set_m_sm_directional_lights x (p : LBufferPass) :=
  {| m_light_buffer := m_light_buffer p;
     m_directional_lights := m_directional_lights p;
     m_omni_lights := m_omni_lights p; m_spot_lights := m_spot_lights p;
     m_sm_directional_lights := x;
     m_sm_omni_lights := m_sm_omni_lights p;
     m_sm_spot_lights := m_sm_spot_lights p;
     m_directional_sms := m_directional_sms p; m_omni_sms := m_omni_sms p;
     m_spot_sms := m_spot_sms p |}.

Definition set_m_sm_omni_lights x (p : LBufferPass) :=
  {| m_light_buffer := m_light_buffer p;
     m_directional_lights := m_directional_lights p;
     m_omni_lights := m_omni_lights p; m_spot_lights := m_spot_lights p;
     m_sm_directional_lights := m_sm_directional_lights p;
     m_sm_omni_lights := x;
     m_sm_spot_lights := m_sm_spot_lights p;
     m_directional_sms := m_directional_sms p; m_omni_sms := m_omni_sms p;
     m_spot_sms := m_spot_sms p |}.

Definition set_m_sm_spot_lights x (p : LBufferPass) :=
  {| m_light_buffer := m_light_buffer p;
     m_directional_lights := m_directional_lights p;
     m_omni_lights := m_omni_lights p; m_spot_lights := m_spot_lights p;
     m_sm_directional_lights := m_sm_directional_lights p;
     m_sm_omni_lights := m_sm_omni_lights p;
     m_sm_spot_lights := x;
     m_directional_sms := m_directional_sms p; m_omni_sms := m_omni_sms p;
     m_spot_sms := m_spot_sms p |}.

Definition set_m_directional_sms x (p : LBufferPass) :=
  {| m_light_buffer := m_light_buffer p;
     m_directional_lights := m_directional_lights p;
     m_omni_lights := m_omni_lights p; m_spot_lights := m_spot_lights p;
     m_sm_directional_lights := m_sm_directional_lights p;
     m_sm_omni_lights := m_sm_omni_lights p;
     m_sm_spot_lights := m_sm_spot_lights p;
     m_directional_sms := x; m_omni_sms := m_omni_sms p;
     m_spot_sms := m_spot_sms p |}.

Definition set_m_omni_sms x (p : LBufferPass) :=
  {| m_light_buffer := m_light_buffer p;
     m_directional_lights := m_directional_lights p;
     m_omni_lights := m_omni_lights p; m_spot_lights := m_spot_lights p;
     m_sm_directional_lights := m_sm_directional_lights p;
     m_sm_omni_lights := m_sm_omni_lights p;
     m_sm_spot_lights := m_sm_spot_lights p;
     m_directional_sms := m_directional_sms p; m_omni_sms := x;
     m_spot_sms := m_spot_sms p |}.

Definition set_m_spot_sms x (p : LBufferPass) :=
  {| m_light_buffer := m_light_buffer p;
     m_directional_lights := m_directional_lights p;
     m_omni_lights := m_omni_lights p; m_spot_lights := m_spot_lights p;
     m_sm_directional_lights := m_sm_directional_lights p;
     m_sm_omni_lights := m_sm_omni_lights p;
     m_sm_spot_lights := m_sm_spot_lights p;
     m_directional_sms := m_directional_sms p; m_omni_sms := m_omni_sms p;
     m_spot_sms := x |}.

(** [LBufferPass::LBufferPass]: the members are constructed in turn, and a
    constructor that throws ends the construction. *)
Definition LBufferPass_ctor : M Device LBufferPass :=
  call light_buffer := ConstantBuffer_ctor in
  call directional_lights := StructuredBuffer_ctor 3 in
  call omni_lights := StructuredBuffer_ctor 32 in
  call spot_lights := StructuredBuffer_ctor 32 in
  call sm_directional_lights := StructuredBuffer_ctor 1 in
  call sm_omni_lights := StructuredBuffer_ctor 1 in
  call sm_spot_lights := StructuredBuffer_ctor 1 in
  call directional_sms := ShadowMapBuffer_ctor 1 in
  call omni_sms := ShadowCubeMapBuffer_ctor 1 in
  call spot_sms := ShadowMapBuffer_ctor 1 in
  ret {| m_light_buffer := light_buffer;
         m_directional_lights := directional_lights;
         m_omni_lights := omni_lights;
         m_spot_lights := spot_lights;
         m_sm_directional_lights := sm_directional_lights;
         m_sm_omni_lights := sm_omni_lights;
         m_sm_spot_lights := sm_spot_lights;
         m_directional_sms := directional_sms;
         m_omni_sms := omni_sms;
         m_spot_sms := spot_sms |}.

(** What a member function can touch: the device, the immediate context
    and the pass itself; [trace] records the requests made so far. *)
Record World := {
  device : Device;
  context : DeviceContext;
  pass : LBufferPass;
  trace : list Event;
}.

Definition on_context (f : DeviceContext → DeviceContext) : M World unit :=
  modify (λ w, {| device := device w; context := f (context w);
                  pass := pass w; trace := trace w |}).

Definition on_pass (f : LBufferPass → LBufferPass) : M World unit :=
  modify (λ w, {| device := device w; context := context w;
                  pass := f (pass w); trace := trace w |}).

Definition emit (e : Event) : M World unit :=
  modify (λ w, {| device := device w; context := context w;
                  pass := pass w; trace := push_back (trace w) e |}).

(** [MakeUnique< T >(args)]: runs the constructor of [T] on the device; the
    object exists only if the constructor returns. *)
Definition MakeUnique {T} (ctor : M Device T) : M World T :=
  λ w, let '(o, d) := ctor (device w) in
       (o, {| device := d; context := context w; pass := pass w;
              trace := push_back (trace w)
                         (EvMakeUnique
                            match o with Returned _ => true | Thrown _ => false end) |}).

Definition PS_BindSRVs (start_slot : nat) (srvs : list (option handle)) : M World unit :=
  emit (EvBindSRVs PS start_slot srvs) ;;;
  on_context (BindSRVs PS start_slot srvs).

Definition CS_BindSRVs (start_slot : nat) (srvs : list (option handle)) : M World unit :=
  emit (EvBindSRVs CS start_slot srvs) ;;;
  on_context (BindSRVs CS start_slot srvs).

Definition PS_BindConstantBuffer (slot : nat) (buffer : handle) : M World unit :=
  emit (EvBindConstantBuffer PS slot buffer) ;;;
  on_context (BindConstantBuffer PS slot buffer).

Definition CS_BindConstantBuffer (slot : nat) (buffer : handle) : M World unit :=
  emit (EvBindConstantBuffer CS slot buffer) ;;;
  on_context (BindConstantBuffer CS slot buffer).

(** [buffer.UpdateData(m_device_context, data)] on a structured buffer
    member. *)
Definition UpdateData {DataT}
    (member : LBufferPass → StructuredBuffer DataT)
    (set_member : StructuredBuffer DataT → LBufferPass → LBufferPass)
    (data : list DataT) : M World unit :=
  call w := get in
  emit (EvUpdateStructuredBuffer
          (StructuredBuffer_Get (member (pass w))) (length data)) ;;;
  on_pass (λ this, set_member (StructuredBuffer_UpdateData data (member this)) this).

Definition UnbindSMSs : M World unit :=
  let srvs : list (option handle) := [None; None; None] in
  PS_BindSRVs SLOT_SRV_SHADOW_MAPS_START srvs ;;;
  CS_BindSRVs SLOT_SRV_SHADOW_MAPS_START srvs.

Definition BindLBuffer : M World unit :=
  call w := get in
  let this := pass w in
  let srvs :=
    [ Some (StructuredBuffer_Get (m_directional_lights this));
      Some (StructuredBuffer_Get (m_omni_lights this));
      Some (StructuredBuffer_Get (m_spot_lights this));
      Some (StructuredBuffer_Get (m_sm_directional_lights this));
      Some (StructuredBuffer_Get (m_sm_omni_lights this));
      Some (StructuredBuffer_Get (m_sm_spot_lights this));
      Some (ShadowMapBuffer_GetSRV (m_directional_sms this));
      Some (ShadowCubeMapBuffer_GetSRV (m_omni_sms this));
      Some (ShadowMapBuffer_GetSRV (m_spot_sms this)) ] in
  PS_BindConstantBuffer SLOT_CBUFFER_LIGHTING
    (ConstantBuffer_Get (m_light_buffer this)) ;;;
  CS_BindConstantBuffer SLOT_CBUFFER_LIGHTING
    (ConstantBuffer_Get (m_light_buffer this)) ;;;
  PS_BindSRVs SLOT_SRV_LIGHTS_START srvs ;;;
  CS_BindSRVs SLOT_SRV_LIGHTS_START srvs.

Definition ProcessLightsData (scene : PassBuffer) : M World unit :=
  call w := get in
  let this := pass w in
  let buffer :=
    {| lb_Ia := GetAmbientLight scene;
       lb_fog_color := fog_GetIntensity (GetFog scene);
       lb_fog_distance_falloff_start := fog_GetStartDistanceFalloff (GetFog scene);
       lb_fog_distance_falloff_inv_range :=
         F32_div F32_one (fog_GetRangeDistanceFalloff (GetFog scene));
       lb_nb_directional_lights :=
         static_cast_uint32_t (StructuredBuffer_size (m_directional_lights this));
       lb_nb_omni_lights :=
         static_cast_uint32_t (StructuredBuffer_size (m_omni_lights this));
       lb_nb_spot_lights :=
         static_cast_uint32_t (StructuredBuffer_size (m_spot_lights this));
       lb_nb_sm_directional_lights :=
         static_cast_uint32_t (StructuredBuffer_size (m_sm_directional_lights this));
       lb_nb_sm_omni_lights :=
         static_cast_uint32_t (StructuredBuffer_size (m_sm_omni_lights this));
       lb_nb_sm_spot_lights :=
         static_cast_uint32_t (StructuredBuffer_size (m_sm_spot_lights this)) |} in
  emit (EvUpdateConstantBuffer (ConstantBuffer_Get (m_light_buffer this))) ;;;
  on_pass (λ this,
    set_m_light_buffer (ConstantBuffer_UpdateData buffer (m_light_buffer this)) this).

Definition ProcessLights_directional
    (lights : list DirectionalLightNode) (world_to_view : XMMATRIX) : M World unit :=
  let buffer := ProcessLights_directional_loop lights world_to_view in
  UpdateData m_directional_lights set_m_directional_lights buffer.

Definition ProcessLights_omni (lights : list OmniLightNode)
    (world_to_projection world_to_view : XMMATRIX) : M World unit :=
  let buffer := ProcessLights_omni_loop lights world_to_projection world_to_view in
  UpdateData m_omni_lights set_m_omni_lights buffer.

Definition ProcessLights_spot (lights : list SpotLightNode)
    (world_to_projection world_to_view : XMMATRIX) : M World unit :=
  let buffer := ProcessLights_spot_loop lights world_to_projection world_to_view in
  UpdateData m_spot_lights set_m_spot_lights buffer.

(** Modelled from the spec: the three [GetNumberOf...WithShadowMapping]
    members (lbuffer_pass.hpp is missing) give the requested count, which is
    the number of shadow-mapped lights packed this frame. *)
Definition GetNumberOfDirectionalLightsWithShadowMapping (this : LBufferPass) : nat :=
  StructuredBuffer_size (m_sm_directional_lights this).

Definition GetNumberOfOmniLightsWithShadowMapping (this : LBufferPass) : nat :=
  StructuredBuffer_size (m_sm_omni_lights this).

Definition GetNumberOfSpotLightsWithShadowMapping (this : LBufferPass) : nat :=
  StructuredBuffer_size (m_sm_spot_lights this).

Definition SetupDirectionalShadowMaps : M World unit :=
  call w := get in
  let nb_requested := GetNumberOfDirectionalLightsWithShadowMapping (pass w) in
  let nb_available := ShadowMapBuffer_GetNumberOfShadowMaps (m_directional_sms (pass w)) in
  if nb_available <? nb_requested then
    call sms := MakeUnique (ShadowMapBuffer_ctor nb_requested) in
    on_pass (set_m_directional_sms sms)
  else ret tt.

Definition SetupOmniShadowMaps : M World unit :=
  call w := get in
  let nb_requested := GetNumberOfOmniLightsWithShadowMapping (pass w) in
  let nb_available := ShadowCubeMapBuffer_GetNumberOfShadowCubeMaps (m_omni_sms (pass w)) in
  if nb_available <? nb_requested then
    call sms := MakeUnique (ShadowCubeMapBuffer_ctor nb_requested) in
    on_pass (set_m_omni_sms sms)
  else ret tt.

Definition SetupSpotShadowMaps : M World unit :=
  call w := get in
  let nb_requested := GetNumberOfSpotLightsWithShadowMapping (pass w) in
  let nb_available := ShadowMapBuffer_GetNumberOfShadowMaps (m_spot_sms (pass w)) in
  if nb_available <? nb_requested then
    call sms := MakeUnique (ShadowMapBuffer_ctor nb_requested) in
    on_pass (set_m_spot_sms sms)
  else ret tt.

Definition ProcessLightsWithShadowMapping_directional
    (lights : list DirectionalLightNode) (world_to_view view_to_world : XMMATRIX)
    : M World unit :=
  let '(buffer, cameras) :=
    ProcessLightsWithShadowMapping_directional_loop lights world_to_view view_to_world in
  UpdateData m_sm_directional_lights set_m_sm_directional_lights buffer ;;;
  SetupDirectionalShadowMaps.

Definition ProcessLightsWithShadowMapping_omni (lights : list OmniLightNode)
    (world_to_projection world_to_view view_to_world : XMMATRIX) : M World unit :=
  let '(buffer, cameras) :=
    ProcessLightsWithShadowMapping_omni_loop
      lights world_to_projection world_to_view view_to_world in
  UpdateData m_sm_omni_lights set_m_sm_omni_lights buffer ;;;
  SetupOmniShadowMaps.

Definition ProcessLightsWithShadowMapping_spot (lights : list SpotLightNode)
    (world_to_projection world_to_view view_to_world : XMMATRIX) : M World unit :=
  let '(buffer, cameras) :=
    ProcessLightsWithShadowMapping_spot_loop
      lights world_to_projection world_to_view view_to_world in
  UpdateData m_sm_spot_lights set_m_sm_spot_lights buffer ;;;
  SetupSpotShadowMaps.

Definition Render (scene : PassBuffer)
    (world_to_projection world_to_view view_to_world : XMMATRIX) : M World unit :=
  ProcessLights_directional (GetDirectionalLights scene) world_to_view ;;;
  ProcessLights_omni (GetOmniLights scene) world_to_projection world_to_view ;;;
  ProcessLights_spot (GetSpotLights scene) world_to_projection world_to_view ;;;
  UnbindSMSs ;;;
  ProcessLightsWithShadowMapping_directional
    (GetDirectionalLightsWithShadowMapping scene) world_to_view view_to_world ;;;
  ProcessLightsWithShadowMapping_omni
    (GetOmniLightsWithShadowMapping scene)
    world_to_projection world_to_view view_to_world ;;;
  ProcessLightsWithShadowMapping_spot
    (GetSpotLightsWithShadowMapping scene)
    world_to_projection world_to_view view_to_world ;;;
  ProcessLightsData scene ;;;
  BindLBuffer.

(** ** Vocabulary of the properties *)

Inductive LightCategory := Directional | Omni | Spot.

#[global] Instance LightCategory_eq_dec : EqDecision LightCategory.
Proof. solve_decision. Defined.

(** What one call of [Render] is given. *)
Record Frame := {
  frame_scene : PassBuffer;
  frame_world_to_projection : XMMATRIX;
  frame_world_to_view : XMMATRIX;
  frame_view_to_world : XMMATRIX;
}.

Definition RenderFrame (f : Frame) : M World unit :=
  Render (frame_scene f) (frame_world_to_projection f)
         (frame_world_to_view f) (frame_view_to_world f).

(** The packing pass of a category without shadow mapping, as [Render]
    calls it. *)
Definition ProcessLights (c : LightCategory) (f : Frame) : M World unit :=
  match c with
  | Directional =>
      ProcessLights_directional
        (GetDirectionalLights (frame_scene f)) (frame_world_to_view f)
  | Omni =>
      ProcessLights_omni (GetOmniLights (frame_scene f))
        (frame_world_to_projection f) (frame_world_to_view f)
  | Spot =>
      ProcessLights_spot (GetSpotLights (frame_scene f))
        (frame_world_to_projection f) (frame_world_to_view f)
  end.

(** The packing pass of a category with shadow mapping, as [Render] calls
    it. *)
Definition ProcessLightsWithShadowMapping (c : LightCategory) (f : Frame)
    : M World unit :=
  match c with
  | Directional =>
      ProcessLightsWithShadowMapping_directional
        (GetDirectionalLightsWithShadowMapping (frame_scene f))
        (frame_world_to_view f) (frame_view_to_world f)
  | Omni =>
      ProcessLightsWithShadowMapping_omni
        (GetOmniLightsWithShadowMapping (frame_scene f))
        (frame_world_to_projection f) (frame_world_to_view f) (frame_view_to_world f)
  | Spot =>
      ProcessLightsWithShadowMapping_spot
        (GetSpotLightsWithShadowMapping (frame_scene f))
        (frame_world_to_projection f) (frame_world_to_view f) (frame_view_to_world f)
  end.

Definition SetupShadowMaps (c : LightCategory) : M World unit :=
  match c with
  | Directional => SetupDirectionalShadowMaps
  | Omni => SetupOmniShadowMaps
  | Spot => SetupSpotShadowMaps
  end.

(** The length of the element sequence a packing pass builds in a frame. *)
Definition nb_packed (c : LightCategory) (f : Frame) : nat :=
  match c with
  | Directional =>
      length (ProcessLights_directional_loop
                (GetDirectionalLights (frame_scene f)) (frame_world_to_view f))
  | Omni =>
      length (ProcessLights_omni_loop (GetOmniLights (frame_scene f))
                (frame_world_to_projection f) (frame_world_to_view f))
  | Spot =>
      length (ProcessLights_spot_loop (GetSpotLights (frame_scene f))
                (frame_world_to_projection f) (frame_world_to_view f))
  end.

(** The same for the passes with shadow mapping: this is the capacity the
    frame requests of the shadow maps of the category. *)
Definition nb_requested (c : LightCategory) (f : Frame) : nat :=
  match c with
  | Directional =>
      length (fst (ProcessLightsWithShadowMapping_directional_loop
                     (GetDirectionalLightsWithShadowMapping (frame_scene f))
                     (frame_world_to_view f) (frame_view_to_world f)))
  | Omni =>
      length (fst (ProcessLightsWithShadowMapping_omni_loop
                     (GetOmniLightsWithShadowMapping (frame_scene f))
                     (frame_world_to_projection f) (frame_world_to_view f)
                     (frame_view_to_world f)))
  | Spot =>
      length (fst (ProcessLightsWithShadowMapping_spot_loop
                     (GetSpotLightsWithShadowMapping (frame_scene f))
                     (frame_world_to_projection f) (frame_world_to_view f)
                     (frame_view_to_world f)))
  end.

(** The capacity of the shadow maps of a category, as the [Setup...]
    member of the category reads it. *)
Definition nb_available (c : LightCategory) (this : LBufferPass) : nat :=
  match c with
  | Directional => ShadowMapBuffer_GetNumberOfShadowMaps (m_directional_sms this)
  | Omni => ShadowCubeMapBuffer_GetNumberOfShadowCubeMaps (m_omni_sms this)
  | Spot => ShadowMapBuffer_GetNumberOfShadowMaps (m_spot_sms this)
  end.

(** The number of depth-stencil views of the shadow maps of a category, and
    how many of them one shadow map of the category takes. *)
Definition nb_slices (c : LightCategory) (this : LBufferPass) : nat :=
  match c with
  | Directional => ShadowMapBuffer_GetNumberOfShadowMaps (m_directional_sms this)
  | Omni => ShadowCubeMapBuffer_GetNumberOfShadowMaps (m_omni_sms this)
  | Spot => ShadowMapBuffer_GetNumberOfShadowMaps (m_spot_sms this)
  end.

Definition slices_per_map (c : LightCategory) : nat :=
  match c with Omni => 6 | _ => 1 end.

(** The buffer object a category holds. *)
Inductive ShadowMaps :=
  | Maps (b : ShadowMapBuffer)
  | CubeMaps (b : ShadowCubeMapBuffer).

Definition shadow_maps (c : LightCategory) (this : LBufferPass) : ShadowMaps :=
  match c with
  | Directional => Maps (m_directional_sms this)
  | Omni => CubeMaps (m_omni_sms this)
  | Spot => Maps (m_spot_sms this)
  end.

(** The element count of the structured buffer of a category. *)
Definition nb_lights (c : LightCategory) (this : LBufferPass) : nat :=
  match c with
  | Directional => StructuredBuffer_size (m_directional_lights this)
  | Omni => StructuredBuffer_size (m_omni_lights this)
  | Spot => StructuredBuffer_size (m_spot_lights this)
  end.

Definition nb_sm_lights (c : LightCategory) (this : LBufferPass) : nat :=
  match c with
  | Directional => GetNumberOfDirectionalLightsWithShadowMapping this
  | Omni => GetNumberOfOmniLightsWithShadowMapping this
  | Spot => GetNumberOfSpotLightsWithShadowMapping this
  end.

(** The count field of a category in the aggregate light buffer. *)
Definition count_field (c : LightCategory) (b : LightBuffer) : Z :=
  match c with
  | Directional => lb_nb_directional_lights b
  | Omni => lb_nb_omni_lights b
  | Spot => lb_nb_spot_lights b
  end.

Definition sm_count_field (c : LightCategory) (b : LightBuffer) : Z :=
  match c with
  | Directional => lb_nb_sm_directional_lights b
  | Omni => lb_nb_sm_omni_lights b
  | Spot => lb_nb_sm_spot_lights b
  end.

(** A sequence of frames seen by the shadow-mapped pass of one category:
    one capacity request per frame. *)
Fixpoint ProcessFrames (c : LightCategory) (fs : list Frame) : M World unit :=
  match fs with
  | [] => ret tt
  | f :: fs' => ProcessLightsWithShadowMapping c f ;;; ProcessFrames c fs'
  end.

(** What [Render] does before it reaches the shadow-mapped pass of a
    category. *)
Definition RenderUpTo (c : LightCategory) (f : Frame) : M World unit :=
  ProcessLights Directional f ;;;
  ProcessLights Omni f ;;;
  ProcessLights Spot f ;;;
  UnbindSMSs ;;;
  match c with
  | Directional => ret tt
  | Omni => ProcessLightsWithShadowMapping Directional f
  | Spot =>
      ProcessLightsWithShadowMapping Directional f ;;;
      ProcessLightsWithShadowMapping Omni f
  end.

(** Frustum culling as the omni and the spot loops apply it. *)
Definition omni_survives (world_to_projection : XMMATRIX) (node : OmniLightNode) : bool :=
  negb (Cull_BS
          (XMMatrixMultiply (GetObjectToWorldMatrix (on_GetTransform node))
                            world_to_projection)
          (ol_GetBS (on_GetLight node))).

Definition spot_survives (world_to_projection : XMMATRIX) (node : SpotLightNode) : bool :=
  negb (Cull_AABB
          (XMMatrixMultiply (GetObjectToWorldMatrix (sn_GetTransform node))
                            world_to_projection)
          (sl_GetAABB (sn_GetLight node))).

(** The camera of one cube face of an omni light. *)
Definition cube_face_camera (node : OmniLightNode) (rotation : XMMATRIX) : LightCamera :=
  let view := XMMatrixMultiply (GetWorldToObjectMatrix (on_GetTransform node)) rotation in
  let projection := GetViewToProjectionMatrix (ol_GetLightCamera (on_GetLight node)) in
  {| world_to_lprojection := XMMatrixMultiply view projection;
     world_to_lview := view;
     lview_to_lprojection := projection |}.

(** The camera of a spotlight. *)
Definition spot_camera (node : SpotLightNode) : LightCamera :=
  let view := GetWorldToObjectMatrix (sn_GetTransform node) in
  let projection := GetViewToProjectionMatrix (sl_GetLightCamera (sn_GetLight node)) in
  {| world_to_lprojection := XMMatrixMultiply view projection;
     world_to_lview := view;
     lview_to_lprojection := projection |}.

(** The element of a directional light, with and without shadow mapping. *)
Definition directional_element (world_to_view : XMMATRIX)
    (node : DirectionalLightNode) : DirectionalLightBuffer :=
  {| dlb_neg_d :=
       XMStoreFloat3
         (XMVectorNegate
            (XMVector3Normalize
               (XMVector3TransformNormal
                  (GetWorldForward (dn_GetTransform node)) world_to_view)));
     dlb_I := dl_GetIntensity (dn_GetLight node) |}.

(** Members that two states of the pass have in common. *)
Definition same_lights (c : LightCategory) (this this' : LBufferPass) : Prop :=
  match c with
  | Directional => m_directional_lights this' = m_directional_lights this
  | Omni => m_omni_lights this' = m_omni_lights this
  | Spot => m_spot_lights this' = m_spot_lights this
  end.

Definition same_sm_lights (c : LightCategory) (this this' : LBufferPass) : Prop :=
  match c with
  | Directional => m_sm_directional_lights this' = m_sm_directional_lights this
  | Omni => m_sm_omni_lights this' = m_sm_omni_lights this
  | Spot => m_sm_spot_lights this' = m_sm_spot_lights this
  end.

Definition same_shadow_maps (c : LightCategory) (this this' : LBufferPass) : Prop :=
  shadow_maps c this' = shadow_maps c this.

(** Two frames in which the shadow-mapped pass of a category packs the same
    elements. *)
Definition same_packed_elements (c : LightCategory) (f f' : Frame) : Prop :=
  match c with
  | Directional =>
      fst (ProcessLightsWithShadowMapping_directional_loop
             (GetDirectionalLightsWithShadowMapping (frame_scene f))
             (frame_world_to_view f) (frame_view_to_world f))
      = fst (ProcessLightsWithShadowMapping_directional_loop
               (GetDirectionalLightsWithShadowMapping (frame_scene f'))
               (frame_world_to_view f') (frame_view_to_world f'))
  | Omni =>
      fst (ProcessLightsWithShadowMapping_omni_loop
             (GetOmniLightsWithShadowMapping (frame_scene f))
             (frame_world_to_projection f) (frame_world_to_view f)
             (frame_view_to_world f))
      = fst (ProcessLightsWithShadowMapping_omni_loop
               (GetOmniLightsWithShadowMapping (frame_scene f'))
               (frame_world_to_projection f') (frame_world_to_view f')
               (frame_view_to_world f'))
  | Spot =>
      fst (ProcessLightsWithShadowMapping_spot_loop
             (GetSpotLightsWithShadowMapping (frame_scene f))
             (frame_world_to_projection f) (frame_world_to_view f)
             (frame_view_to_world f))
      = fst (ProcessLightsWithShadowMapping_spot_loop
               (GetSpotLightsWithShadowMapping (frame_scene f'))
               (frame_world_to_projection f') (frame_world_to_view f')
               (frame_view_to_world f'))
  end.

(** The cameras the shadow-mapped pass of a category computes in a frame. *)
Definition cameras_of (c : LightCategory) (f : Frame) : list LightCamera :=
  match c with
  | Directional =>
      snd (ProcessLightsWithShadowMapping_directional_loop
             (GetDirectionalLightsWithShadowMapping (frame_scene f))
             (frame_world_to_view f) (frame_view_to_world f))
  | Omni =>
      snd (ProcessLightsWithShadowMapping_omni_loop
             (GetOmniLightsWithShadowMapping (frame_scene f))
             (frame_world_to_projection f) (frame_world_to_view f)
             (frame_view_to_world f))
  | Spot =>
      snd (ProcessLightsWithShadowMapping_spot_loop
             (GetSpotLightsWithShadowMapping (frame_scene f))
             (frame_world_to_projection f) (frame_world_to_view f)
             (frame_view_to_world f))
  end.

(** The world in which a construction has just been refused. *)
Definition refused (w : World) : World :=
  {| device := {| dev_fails := dev_fails (device w);
                  dev_requests := S (dev_requests (device w));
                  dev_next_handle := dev_next_handle (device w) |};
     context := context w;
     pass := pass w;
     trace := push_back (trace w) (EvMakeUnique false) |}.

(** The shadow maps of [this'] are those of [this], or larger ones. *)
Definition grows (this this' : LBufferPass) : Prop :=
  ∀ c, same_shadow_maps c this this'
       ∨ (nb_available c this < nb_available c this'
          ∧ nb_slices c this' = slices_per_map c * nb_available c this').

(** The worlds a constructed pass can be in: frames are rendered, whether
    [Render] returns or throws, and between two frames the rest of the
    engine may use the device and the context. *)
Inductive reachable (this0 : LBufferPass) : World → Prop :=
  | reachable_ctor d ctx tr :
      reachable this0 {| device := d; context := ctx; pass := this0; trace := tr |}
  | reachable_Render w f o w' :
      reachable this0 w → RenderFrame f w = (o, w') → reachable this0 w'
  | reachable_engine w d ctx :
      reachable this0 w →
      reachable this0
        {| device := d; context := ctx; pass := pass w; trace := trace w |}.

(** The nine views [BindLBuffer] binds. *)
Definition lbuffer_srvs (this : LBufferPass) : list (option handle) :=
  [ Some (StructuredBuffer_Get (m_directional_lights this));
    Some (StructuredBuffer_Get (m_omni_lights this));
    Some (StructuredBuffer_Get (m_spot_lights this));
    Some (StructuredBuffer_Get (m_sm_directional_lights this));
    Some (StructuredBuffer_Get (m_sm_omni_lights this));
    Some (StructuredBuffer_Get (m_sm_spot_lights this));
    Some (ShadowMapBuffer_GetSRV (m_directional_sms this));
    Some (ShadowCubeMapBuffer_GetSRV (m_omni_sms this));
    Some (ShadowMapBuffer_GetSRV (m_spot_sms this)) ].

Definition sm_lights_srv (c : LightCategory) (this : LBufferPass) : handle :=
  match c with
  | Directional => StructuredBuffer_Get (m_sm_directional_lights this)
  | Omni => StructuredBuffer_Get (m_sm_omni_lights this)
  | Spot => StructuredBuffer_Get (m_sm_spot_lights this)
  end.

Definition lights_srv (c : LightCategory) (this : LBufferPass) : handle :=
  match c with
  | Directional => StructuredBuffer_Get (m_directional_lights this)
  | Omni => StructuredBuffer_Get (m_omni_lights this)
  | Spot => StructuredBuffer_Get (m_spot_lights this)
  end.

(** The requests of the shadow-mapped pass of a category in a frame that
    goes through: the update of its structured buffer, then one
    construction if the capacity does not suffice. *)
Definition shadow_pass_events (c : LightCategory) (this : LBufferPass) (f : Frame)
    : list Event :=
  EvUpdateStructuredBuffer (sm_lights_srv c this) (nb_requested c f)
  :: (if nb_available c this <? nb_requested c f then [EvMakeUnique true] else []).


(** ** More of the pass and of its buffers *)

(** The element the omni loops and the spot loops build for a light that
    survives culling. *)
Definition omni_element (world_to_view : XMMATRIX) (node : OmniLightNode)
    : OmniLightBuffer :=
  {| olb_p :=
       XMStoreFloat3
         (XMVector3TransformCoord (GetWorldEye (on_GetTransform node)) world_to_view);
     olb_I := ol_GetIntensity (on_GetLight node);
     olb_distance_falloff_end := ol_GetEndDistanceFalloff (on_GetLight node);
     olb_distance_falloff_inv_range :=
       F32_div F32_one (ol_GetRangeDistanceFalloff (on_GetLight node)) |}.

Definition spot_element (world_to_view : XMMATRIX) (node : SpotLightNode)
    : SpotLightBuffer :=
  {| slb_p :=
       XMStoreFloat3
         (XMVector3TransformCoord (GetWorldEye (sn_GetTransform node)) world_to_view);
     slb_neg_d :=
       XMStoreFloat3
         (XMVectorNegate
            (XMVector3Normalize
               (XMVector3TransformNormal
                  (GetWorldForward (sn_GetTransform node)) world_to_view)));
     slb_I := sl_GetIntensity (sn_GetLight node);
     slb_exponent_property := sl_GetExponentProperty (sn_GetLight node);
     slb_distance_falloff_end := sl_GetEndDistanceFalloff (sn_GetLight node);
     slb_distance_falloff_inv_range :=
       F32_div F32_one (sl_GetRangeDistanceFalloff (sn_GetLight node));
     slb_cos_umbra := sl_GetEndAngularCutoff (sn_GetLight node);
     slb_cos_inv_range :=
       F32_div F32_one (sl_GetRangeAngularCutoff (sn_GetLight node)) |}.

Definition omni_sm_element (world_to_view view_to_world : XMMATRIX)
    (node : OmniLightNode) : OmniLightWithShadowMappingBuffer :=
  {| osm_light := omni_element world_to_view node;
     osm_cview_to_lview :=
       XMMatrixTranspose
         (XMMatrixMultiply view_to_world
            (GetWorldToObjectMatrix (on_GetTransform node))) |}.

Definition spot_sm_element (world_to_view view_to_world : XMMATRIX)
    (node : SpotLightNode) : SpotLightWithShadowMappingBuffer :=
  {| ssm_light := spot_element world_to_view node;
     ssm_cview_to_lprojection :=
       XMMatrixTranspose
         (XMMatrixMultiply view_to_world
            (XMMatrixMultiply
               (GetWorldToObjectMatrix (sn_GetTransform node))
               (GetViewToProjectionMatrix
                  (sl_GetLightCamera (sn_GetLight node))))) |}.

(** What [ShadowMapBuffer] and [ShadowCubeMapBuffer] ask of the output
    merger. *)
Inductive OMCommand :=
  | OM_ClearDepthOfDSV (dsv : handle)
  | OM_BindRTVAndDSV (rtv : option handle) (dsv : handle).

(** [GetDSV(dsv_index)] is [m_dsvs[dsv_index]]: [None] stands for an index
    out of range, where the source has no defined result. *)
Definition ShadowMapBuffer_GetDSV (b : ShadowMapBuffer) (dsv_index : nat)
    : option handle :=
  sm_dsvs b !! dsv_index.

Definition ShadowMapBuffer_BindDSV (b : ShadowMapBuffer) (dsv_index : nat)
    : option OMCommand :=
  match sm_dsvs b !! dsv_index with
  | Some dsv => Some (OM_BindRTVAndDSV None dsv)
  | None => None
  end.

Definition ShadowMapBuffer_ClearDSVs (b : ShadowMapBuffer) : list OMCommand :=
  fold_left (λ cmds dsv, push_back cmds (OM_ClearDepthOfDSV dsv)) (sm_dsvs b) [].

Definition ShadowCubeMapBuffer_GetDSV (b : ShadowCubeMapBuffer) (dsv_index : nat)
    : option handle :=
  scm_dsvs b !! dsv_index.

Definition ShadowCubeMapBuffer_BindDSV (b : ShadowCubeMapBuffer) (dsv_index : nat)
    : option OMCommand :=
  match scm_dsvs b !! dsv_index with
  | Some dsv => Some (OM_BindRTVAndDSV None dsv)
  | None => None
  end.

Definition ShadowCubeMapBuffer_ClearDSVs (b : ShadowCubeMapBuffer) : list OMCommand :=
  fold_left (λ cmds dsv, push_back cmds (OM_ClearDepthOfDSV dsv)) (scm_dsvs b) [].

(** The three members above, for the shadow maps of a category. *)
Definition GetDSV (c : LightCategory) (this : LBufferPass) (dsv_index : nat)
    : option handle :=
  match c with
  | Directional => ShadowMapBuffer_GetDSV (m_directional_sms this) dsv_index
  | Omni => ShadowCubeMapBuffer_GetDSV (m_omni_sms this) dsv_index
  | Spot => ShadowMapBuffer_GetDSV (m_spot_sms this) dsv_index
  end.

Definition BindDSV (c : LightCategory) (this : LBufferPass) (dsv_index : nat)
    : option OMCommand :=
  match c with
  | Directional => ShadowMapBuffer_BindDSV (m_directional_sms this) dsv_index
  | Omni => ShadowCubeMapBuffer_BindDSV (m_omni_sms this) dsv_index
  | Spot => ShadowMapBuffer_BindDSV (m_spot_sms this) dsv_index
  end.

Definition ClearDSVs (c : LightCategory) (this : LBufferPass) : list OMCommand :=
  match c with
  | Directional => ShadowMapBuffer_ClearDSVs (m_directional_sms this)
  | Omni => ShadowCubeMapBuffer_ClearDSVs (m_omni_sms this)
  | Spot => ShadowMapBuffer_ClearDSVs (m_spot_sms this)
  end.

(** The context once [UnbindSMSs] has run on it. *)
Definition unbound (ctx : DeviceContext) : DeviceContext :=
  BindSRVs CS SLOT_SRV_SHADOW_MAPS_START [None; None; None]
    (BindSRVs PS SLOT_SRV_SHADOW_MAPS_START [None; None; None] ctx).

(** The aggregate light data of a frame: the ambient light and the fog of
    the scene, and the six lengths of what the frame packs. *)
Definition frame_light_buffer (f : Frame) : LightBuffer :=
  {| lb_Ia := GetAmbientLight (frame_scene f);
     lb_fog_color := fog_GetIntensity (GetFog (frame_scene f));
     lb_fog_distance_falloff_start :=
       fog_GetStartDistanceFalloff (GetFog (frame_scene f));
     lb_fog_distance_falloff_inv_range :=
       F32_div F32_one (fog_GetRangeDistanceFalloff (GetFog (frame_scene f)));
     lb_nb_directional_lights := static_cast_uint32_t (nb_packed Directional f);
     lb_nb_omni_lights := static_cast_uint32_t (nb_packed Omni f);
     lb_nb_spot_lights := static_cast_uint32_t (nb_packed Spot f);
     lb_nb_sm_directional_lights := static_cast_uint32_t (nb_requested Directional f);
     lb_nb_sm_omni_lights := static_cast_uint32_t (nb_requested Omni f);
     lb_nb_sm_spot_lights := static_cast_uint32_t (nb_requested Spot f) |}.

(** Whether a slot is one of the [n] slots from [start] on. *)
Definition in_slots (start n slot : nat) : Prop := start ≤ slot < start + n.

End Pass.

(** ** A symbolic instance

    Floats, vectors and matrices as the terms that compute them, so that the
    pass can be run and every value shows where it comes from. *)

Module Symbolic.

Inductive scalar :=
  | Lit (z : Z)
  | One
  | Div (a b : scalar)
  | Neg (a : scalar)
  | Pi
  | PiDiv2.

Inductive matrix :=
  | Mat (name : nat)
  | Identity
  | Mul (a b : matrix)
  | Transpose (a : matrix)
  | RotationX (angle : scalar)
  | RotationY (angle : scalar).

Inductive vector :=
  | Vec (name : nat)
  | Negate (v : vector)
  | Normalize (v : vector)
  | TransformNormal (v : vector) (m : matrix)
  | TransformCoord (v : vector) (m : matrix).

Definition math : DirectXMath :=
  {| F32 := scalar; RGB := nat; XMFLOAT3 := vector; XMVECTOR := vector;
     XMMATRIX := matrix;
     F32_one := One; F32_div := Div; F32_neg := Neg;
     XM_PI := Pi; XM_PIDIV2 := PiDiv2;
     XMVectorNegate := Negate; XMVector3Normalize := Normalize;
     XMVector3TransformNormal := TransformNormal;
     XMVector3TransformCoord := TransformCoord;
     XMStoreFloat3 := λ v, v;
     XMMatrixIdentity := Identity; XMMatrixMultiply := Mul;
     XMMatrixTranspose := Transpose;
     XMMatrixRotationX := RotationX; XMMatrixRotationY := RotationY |}.

(** A bounding volume only says whether it is off screen. *)
Definition frustum : @ViewFrustum math :=
  {| BS := bool; AABB := bool;
     Cull_BS := λ _ off_screen, off_screen;
     Cull_AABB := λ _ off_screen, off_screen |}.

Definition slots : HLSLBindings :=
  {| SLOT_CBUFFER_LIGHTING := 2;
     SLOT_SRV_LIGHTS_START := 4;
     SLOT_SRV_SHADOW_MAPS_START := 10 |}.

#[local] Existing Instance math.
#[local] Existing Instance frustum.
#[local] Existing Instance slots.

Definition transform (name : nat) : TransformNode :=
  {| GetWorldForward := Vec name; GetWorldEye := Vec (100 + name);
     GetObjectToWorldMatrix := Mat name;
     GetWorldToObjectMatrix := Mat (100 + name) |}.

Definition sun (name : nat) : DirectionalLightNode :=
  {| dn_GetTransform := transform name;
     dn_GetLight := {| dl_GetIntensity := name |} |}.

Definition lamp (name : nat) (off_screen : bool) : OmniLightNode :=
  {| on_GetTransform := transform name;
     on_GetLight :=
       {| ol_GetIntensity := name; ol_GetBS := off_screen;
          ol_GetEndDistanceFalloff := Lit 5;
          ol_GetRangeDistanceFalloff := Lit 4;
          ol_GetLightCamera :=
            {| GetViewToProjectionMatrix := Mat (200 + name) |} |} |}.

Definition torch (name : nat) (off_screen : bool) : SpotLightNode :=
  {| sn_GetTransform := transform name;
     sn_GetLight :=
       {| sl_GetIntensity := name; sl_GetAABB := off_screen;
          sl_GetExponentProperty := Lit 2;
          sl_GetEndDistanceFalloff := Lit 5;
          sl_GetRangeDistanceFalloff := Lit 4;
          sl_GetEndAngularCutoff := Lit 1;
          sl_GetRangeAngularCutoff := Lit 3;
          sl_GetLightCamera :=
            {| GetViewToProjectionMatrix := Mat (200 + name) |} |} |}.

Definition scene (dl : list DirectionalLightNode) (ol : list OmniLightNode)
    (sl : list SpotLightNode) (sm_dl : list DirectionalLightNode)
    (sm_ol : list OmniLightNode) (sm_sl : list SpotLightNode) : PassBuffer :=
  {| GetDirectionalLights := dl; GetOmniLights := ol; GetSpotLights := sl;
     GetDirectionalLightsWithShadowMapping := sm_dl;
     GetOmniLightsWithShadowMapping := sm_ol;
     GetSpotLightsWithShadowMapping := sm_sl;
     GetAmbientLight := 7;
     GetFog := {| fog_GetIntensity := 8;
                  fog_GetStartDistanceFalloff := Lit 10;
                  fog_GetRangeDistanceFalloff := Lit 20 |} |}.

Definition frame (sc : PassBuffer) : Frame :=
  {| frame_scene := sc;
     frame_world_to_projection := Mat 1000;
     frame_world_to_view := Mat 1001;
     frame_view_to_world := Mat 1002 |}.

(** No shadow-mapped light at all. *)
Definition dark_frame : Frame := frame (scene [] [] [] [] [] []).

(** One shadow-mapped omni light, whose camera has the given projection. *)
Definition lamp_frame (projection : matrix) : Frame :=
  frame (scene [] [] [] [] 
    [ {| on_GetTransform := transform 8;
         on_GetLight :=
           {| ol_GetIntensity := 8; ol_GetBS := false;
              ol_GetEndDistanceFalloff := Lit 5;
              ol_GetRangeDistanceFalloff := Lit 4;
              ol_GetLightCamera :=
                {| GetViewToProjectionMatrix := projection |} |} |} ] []).

(** Three shadow-mapped lights of each category; one omni light and one
    spotlight are off screen, and so is one omni light without shadows. *)
Definition busy_frame : Frame :=
  frame (scene [sun 1] [lamp 2 false; lamp 3 true] [torch 4 false]
               [sun 5; sun 6; sun 7]
               [lamp 8 false; lamp 9 true; lamp 10 false]
               [torch 11 true; torch 12 false; torch 13 false]).

(** A device that never fails, and one that fails from its eleventh
    request on: the pass can be constructed (ten requests), its shadow maps
    cannot be replaced. *)
Definition device0 : Device :=
  {| dev_fails := λ _, false; dev_requests := 0; dev_next_handle := 1 |}.

Definition exhausted_device0 : Device :=
  {| dev_fails := λ k, 10 <=? k; dev_requests := 0; dev_next_handle := 1 |}.

Definition context0 : DeviceContext :=
  {| ps_cbuffers := ∅; ps_srvs := ∅; cs_cbuffers := ∅; cs_srvs := ∅ |}.

(** The pass that [LBufferPass_ctor] constructs on either device. *)
Definition pass0 : LBufferPass :=
  {| m_light_buffer := {| cb_buffer := 1; cb_accesses := [] |};
     m_directional_lights :=
       {| sb_srv := 2; sb_nb_data_elements := 3; sb_data := []; sb_size := 0 |};
     m_omni_lights :=
       {| sb_srv := 3; sb_nb_data_elements := 32; sb_data := []; sb_size := 0 |};
     m_spot_lights :=
       {| sb_srv := 4; sb_nb_data_elements := 32; sb_data := []; sb_size := 0 |};
     m_sm_directional_lights :=
       {| sb_srv := 5; sb_nb_data_elements := 1; sb_data := []; sb_size := 0 |};
     m_sm_omni_lights :=
       {| sb_srv := 6; sb_nb_data_elements := 1; sb_data := []; sb_size := 0 |};
     m_sm_spot_lights :=
       {| sb_srv := 7; sb_nb_data_elements := 1; sb_data := []; sb_size := 0 |};
     m_directional_sms :=
       {| sm_width := 512; sm_height := 512; sm_format := D16;
          sm_dsvs := [8]; sm_srv := 9 |};
     m_omni_sms :=
       {| scm_width := 512; scm_height := 512; scm_format := D16;
          scm_dsvs := [10; 11; 12; 13; 14; 15]; scm_srv := 16 |};
     m_spot_sms :=
       {| sm_width := 512; sm_height := 512; sm_format := D16;
          sm_dsvs := [17]; sm_srv := 18 |} |}.

Definition device1 : Device :=
  {| dev_fails := λ _, false; dev_requests := 10; dev_next_handle := 19 |}.

Definition exhausted_device1 : Device :=
  {| dev_fails := λ k, 10 <=? k; dev_requests := 10; dev_next_handle := 19 |}.

Definition world0 : World :=
  {| device := device1; context := context0; pass := pass0; trace := [] |}.

Definition exhausted_world0 : World :=
  {| device := exhausted_device1; context := context0; pass := pass0; trace := [] |}.

(** The same, on a context in which the lighting slot and three view slots
    of both stages are bound. *)
Definition bound_context0 : DeviceContext :=
  {| ps_cbuffers := {[2 := 1]};
     ps_srvs := <[4 := 2]> (<[10 := 9]> {[12 := 18]});
     cs_cbuffers := {[2 := 1]};
     cs_srvs := <[4 := 2]> (<[10 := 9]> {[12 := 18]}) |}.

Definition exhausted_bound_world0 : World :=
  {| device := exhausted_device1; context := bound_context0; pass := pass0;
     trace := [] |}.

End Symbolic.

(** * Properties *)

Section Properties.
Context {DX : DirectXMath} {VF : ViewFrustum} {SLOTS : HLSLBindings}.

(** ** The loops *)

(** States the invariant of the loop in the goal for every value of its
    accumulator, [inv] giving the result from the list and the accumulator,
    and leaves the invariant to prove. *)
Ltac loop_invariant inv :=
  lazymatch goal with
  | |- context [fold_left ?F ?l ?acc] =>
      enough (∀ a, fold_left F l a = inv l a) as Hloop;
      [ rewrite Hloop | clear; induction l as [|node l IHl]; intros a ]
  end.

Lemma ProcessLights_directional_loop_map lights (world_to_view : XMMATRIX) :
  ProcessLights_directional_loop lights world_to_view
  = map (directional_element world_to_view) lights.
Proof.
  unfold ProcessLights_directional_loop.
  loop_invariant (λ l a, a ++ map (directional_element world_to_view) l).
  - done.
  - simpl. by rewrite app_nil_r.
  - simpl. rewrite IHl. unfold push_back. by rewrite <- app_assoc.
Qed.

Lemma ProcessLightsWithShadowMapping_directional_loop_map
    lights (world_to_view view_to_world : XMMATRIX) :
  ProcessLightsWithShadowMapping_directional_loop lights world_to_view view_to_world
  = (map (λ node, {| dsm_light := directional_element world_to_view node |}) lights, []).
Proof.
  unfold ProcessLightsWithShadowMapping_directional_loop.
  loop_invariant (λ l (a : list DirectionalLightWithShadowMappingBuffer * list LightCamera),
    (a.1 ++ map (λ node, {| dsm_light := directional_element world_to_view node |}) l,
     a.2)).
  - done.
  - destruct a. simpl. by rewrite app_nil_r.
  - destruct a. simpl. rewrite IHl. simpl. unfold push_back. by rewrite <- app_assoc.
Qed.

Lemma ProcessLights_omni_loop_length lights (world_to_projection world_to_view : XMMATRIX) :
  length (ProcessLights_omni_loop lights world_to_projection world_to_view)
  = length (List.filter (omni_survives world_to_projection) lights).
Proof.
  unfold ProcessLights_omni_loop.
  enough (Hinv : ∀ l a, length (fold_left _ l a)
                     = length a + length (List.filter (omni_survives world_to_projection) l))
    by (rewrite Hinv; done).
  clear. induction l as [|node l IHl]; intros a; simpl; [lia|].
  rewrite IHl. unfold omni_survives.
  destruct (Cull_BS _ _); simpl; [lia|].
  unfold push_back. rewrite length_app. simpl. lia.
Qed.

Lemma ProcessLights_spot_loop_length lights (world_to_projection world_to_view : XMMATRIX) :
  length (ProcessLights_spot_loop lights world_to_projection world_to_view)
  = length (List.filter (spot_survives world_to_projection) lights).
Proof.
  unfold ProcessLights_spot_loop.
  enough (Hinv : ∀ l a, length (fold_left _ l a)
                     = length a + length (List.filter (spot_survives world_to_projection) l))
    by (rewrite Hinv; done).
  clear. induction l as [|node l IHl]; intros a; simpl; [lia|].
  rewrite IHl. unfold spot_survives.
  destruct (Cull_AABB _ _); simpl; [lia|].
  unfold push_back. rewrite length_app. simpl. lia.
Qed.

Lemma cube_faces_pushed (node : OmniLightNode) faces cameras :
  fold_left (λ cameras rotation,
    push_back cameras
      {| world_to_lprojection :=
           XMMatrixMultiply
             (XMMatrixMultiply (GetWorldToObjectMatrix (on_GetTransform node)) rotation)
             (GetViewToProjectionMatrix (ol_GetLightCamera (on_GetLight node)));
         world_to_lview :=
           XMMatrixMultiply (GetWorldToObjectMatrix (on_GetTransform node)) rotation;
         lview_to_lprojection :=
           GetViewToProjectionMatrix (ol_GetLightCamera (on_GetLight node)) |})
    faces cameras
  = cameras ++ map (cube_face_camera node) faces.
Proof.
  revert cameras. induction faces as [|rotation faces IH]; intros cameras; simpl.
  - by rewrite app_nil_r.
  - rewrite IH. unfold push_back. by rewrite <- app_assoc.
Qed.

Lemma ProcessLightsWithShadowMapping_omni_loop_cameras
    lights (world_to_projection world_to_view view_to_world : XMMATRIX) :
  snd (ProcessLightsWithShadowMapping_omni_loop
         lights world_to_projection world_to_view view_to_world)
  = flat_map (λ node, map (cube_face_camera node) rotations)
             (List.filter (omni_survives world_to_projection) lights).
Proof.
  unfold ProcessLightsWithShadowMapping_omni_loop.
  enough (Hinv : ∀ l a, snd (fold_left _ l a)
                     = snd a ++ flat_map (λ node, map (cube_face_camera node) rotations)
                                  (List.filter (omni_survives world_to_projection) l))
    by (rewrite Hinv; done).
  clear. induction l as [|node l IHl]; intros [buffer cameras];
    cbn [fold_left List.filter flat_map snd].
  - by rewrite app_nil_r.
  - rewrite IHl. unfold omni_survives.
    destruct (Cull_BS _ _); cbn [negb flat_map snd]; [done|].
    rewrite cube_faces_pushed. by rewrite <- app_assoc.
Qed.

Lemma ProcessLightsWithShadowMapping_omni_loop_length
    lights (world_to_projection world_to_view view_to_world : XMMATRIX) :
  length (fst (ProcessLightsWithShadowMapping_omni_loop
                 lights world_to_projection world_to_view view_to_world))
  = length (List.filter (omni_survives world_to_projection) lights).
Proof.
  unfold ProcessLightsWithShadowMapping_omni_loop.
  enough (Hinv : ∀ l a, length (fst (fold_left _ l a))
                     = length (fst a)
                       + length (List.filter (omni_survives world_to_projection) l))
    by (rewrite Hinv; done).
  clear. induction l as [|node l IHl]; intros [buffer cameras]; simpl; [lia|].
  rewrite IHl. unfold omni_survives.
  destruct (Cull_BS _ _); simpl; [lia|].
  unfold push_back. rewrite length_app. simpl. lia.
Qed.

Lemma ProcessLightsWithShadowMapping_spot_loop_cameras
    lights (world_to_projection world_to_view view_to_world : XMMATRIX) :
  snd (ProcessLightsWithShadowMapping_spot_loop
         lights world_to_projection world_to_view view_to_world)
  = map spot_camera (List.filter (spot_survives world_to_projection) lights).
Proof.
  unfold ProcessLightsWithShadowMapping_spot_loop.
  enough (Hinv : ∀ l a, snd (fold_left _ l a)
                     = snd a ++ map spot_camera
                                  (List.filter (spot_survives world_to_projection) l))
    by (rewrite Hinv; done).
  clear. induction l as [|node l IHl]; intros [buffer cameras]; simpl.
  - by rewrite app_nil_r.
  - rewrite IHl. unfold spot_survives.
    destruct (Cull_AABB _ _); simpl; [done|].
    unfold push_back. by rewrite <- app_assoc.
Qed.

Lemma ProcessLightsWithShadowMapping_spot_loop_length
    lights (world_to_projection world_to_view view_to_world : XMMATRIX) :
  length (fst (ProcessLightsWithShadowMapping_spot_loop
                 lights world_to_projection world_to_view view_to_world))
  = length (List.filter (spot_survives world_to_projection) lights).
Proof.
  unfold ProcessLightsWithShadowMapping_spot_loop.
  enough (Hinv : ∀ l a, length (fst (fold_left _ l a))
                     = length (fst a)
                       + length (List.filter (spot_survives world_to_projection) l))
    by (rewrite Hinv; done).
  clear. induction l as [|node l IHl]; intros [buffer cameras]; simpl; [lia|].
  rewrite IHl. unfold spot_survives.
  destruct (Cull_AABB _ _); simpl; [lia|].
  unfold push_back. rewrite length_app. simpl. lia.
Qed.

(** ** Running the monad *)

Lemma bind_cases {S A B} (m : M S A) (k : A → M S B) s o s' :
  bind m k s = (o, s') →
  (∃ a s1, m s = (Returned a, s1) ∧ k a s1 = (o, s'))
  ∨ (∃ e, m s = (Thrown e, s') ∧ o = Thrown e).
Proof.
  unfold bind. destruct (m s) as [[a|e] s1]; intros Hk.
  - left. by exists a, s1.
  - right. exists e. by inversion Hk.
Qed.

Lemma bind_Returned {S A B} (m : M S A) (k : A → M S B) s b s' :
  bind m k s = (Returned b, s') →
  ∃ a s1, m s = (Returned a, s1) ∧ k a s1 = (Returned b, s').
Proof.
  intros Hk. destruct (bind_cases _ _ _ _ _ Hk) as [?|(e & _ & ?)]; [done|discriminate].
Qed.

Lemma bind_run {S A B} (m : M S A) (k : A → M S B) s a s1 :
  m s = (Returned a, s1) → bind m k s = k a s1.
Proof. unfold bind. by intros ->. Qed.

Lemma bind_Thrown {S A B} (m : M S A) (k : A → M S B) s e s1 :
  m s = (Thrown e, s1) → bind m k s = (Thrown e, s1).
Proof. unfold bind. by intros ->. Qed.

(** A relation between worlds that holds across [m] and across [k] holds
    across [bind m k]. *)
Lemma bind_within {S A B} (R : S → S → Prop) (m : M S A) (k : A → M S B) :
  (∀ x y z, R x y → R y z → R x z) →
  (∀ s o s', m s = (o, s') → R s s') →
  (∀ a s o s', k a s = (o, s') → R s s') →
  ∀ s o s', bind m k s = (o, s') → R s s'.
Proof.
  intros Htrans Hm Hk s o s' Hrun.
  destruct (bind_cases _ _ _ _ _ Hrun) as [(a & s1 & H1 & H2)|(e & H1 & _)].
  - eapply Htrans; [by eapply Hm | by eapply Hk].
  - by eapply Hm.
Qed.

(** ** The members of the pass, one by one *)

Lemma UpdateData_run {DataT} (member : LBufferPass → StructuredBuffer DataT) set_member
    (data : list DataT) w :
  UpdateData member set_member data w
  = (Returned tt,
     {| device := device w; context := context w;
        pass := set_member (StructuredBuffer_UpdateData data (member (pass w))) (pass w);
        trace := push_back (trace w)
                   (EvUpdateStructuredBuffer (StructuredBuffer_Get (member (pass w)))
                      (length data)) |}).
Proof. reflexivity. Qed.

(** Closes the conditions that say which members a step leaves alone. *)
Ltac members_unchanged :=
  repeat match goal with
         | |- _ ∧ _ => split
         | |- ∀ c : LightCategory, _ => intros []
         | |- _ ≠ _ → _ => intros ?
         end;
  try done; try congruence.

Lemma SetupShadowMaps_spec c w o w' :
  SetupShadowMaps c w = (o, w') →
  context w' = context w
  ∧ m_light_buffer (pass w') = m_light_buffer (pass w)
  ∧ (∀ c', same_lights c' (pass w) (pass w'))
  ∧ (∀ c', same_sm_lights c' (pass w) (pass w'))
  ∧ (∀ c', c' ≠ c → same_shadow_maps c' (pass w) (pass w'))
  ∧ ( (nb_sm_lights c (pass w) ≤ nb_available c (pass w) ∧ o = Returned tt ∧ w' = w)
    ∨ (nb_available c (pass w) < nb_sm_lights c (pass w)
       ∧ dev_fails (device w) (dev_requests (device w)) = true
       ∧ o = Thrown ResourceCreationFailed ∧ w' = refused w)
    ∨ (nb_available c (pass w) < nb_sm_lights c (pass w)
       ∧ dev_fails (device w) (dev_requests (device w)) = false
       ∧ o = Returned tt
       ∧ nb_available c (pass w') = nb_sm_lights c (pass w)
       ∧ nb_slices c (pass w') = slices_per_map c * nb_sm_lights c (pass w)
       ∧ trace w' = push_back (trace w) (EvMakeUnique true))).
Proof.
  destruct c; cbn [SetupShadowMaps];
    unfold SetupDirectionalShadowMaps, SetupOmniShadowMaps, SetupSpotShadowMaps;
    unfold bind at 1, get at 1; cbn [nb_sm_lights nb_available];
    match goal with
    | |- context [?a <? ?b] => destruct (Nat.ltb_spec a b) as [Hlt|Hge]
    end.
  all: try (intros [= <- <-]; members_unchanged; left; done).
  all: unfold MakeUnique, ShadowMapBuffer_ctor, ShadowCubeMapBuffer_ctor,
         bind, CreateResources, ret, on_pass, modify;
       destruct (dev_fails _ _) eqn:Hfail; intros [= <- <-]; cbn.
  all: members_unchanged.
  all: try (right; left; done).
  all: right; right; members_unchanged.
  all: unfold ShadowMapBuffer_GetNumberOfShadowMaps,
         ShadowCubeMapBuffer_GetNumberOfShadowCubeMaps,
         ShadowCubeMapBuffer_GetNumberOfShadowMaps; cbn; rewrite length_seq; try done;
       try lia.
  match goal with
  | |- _ = ?n => change (6 * n / 6 = n)
  end.
  rewrite Nat.mul_comm. by apply Nat.div_mul.
Qed.


Lemma same_lights_trans c p1 p2 p3 :
  same_lights c p1 p2 → same_lights c p2 p3 → same_lights c p1 p3.
Proof. destruct c; cbn; congruence. Qed.

Lemma same_sm_lights_trans c p1 p2 p3 :
  same_sm_lights c p1 p2 → same_sm_lights c p2 p3 → same_sm_lights c p1 p3.
Proof. destruct c; cbn; congruence. Qed.

Lemma same_shadow_maps_trans c p1 p2 p3 :
  same_shadow_maps c p1 p2 → same_shadow_maps c p2 p3 → same_shadow_maps c p1 p3.
Proof. unfold same_shadow_maps. congruence. Qed.

Lemma same_sm_lights_srv c p p' :
  same_sm_lights c p p' → sm_lights_srv c p' = sm_lights_srv c p.
Proof. destruct c; cbn; by intros ->. Qed.

Lemma same_sm_lights_nb c p p' :
  same_sm_lights c p p' → nb_sm_lights c p' = nb_sm_lights c p.
Proof.
  destruct c; cbn;
    unfold GetNumberOfDirectionalLightsWithShadowMapping,
      GetNumberOfOmniLightsWithShadowMapping,
      GetNumberOfSpotLightsWithShadowMapping; by intros ->.
Qed.

Lemma same_lights_srv c p p' :
  same_lights c p p' → lights_srv c p' = lights_srv c p.
Proof. destruct c; cbn; by intros ->. Qed.

Lemma same_lights_nb c p p' :
  same_lights c p p' → nb_lights c p' = nb_lights c p.
Proof. destruct c; cbn; by intros ->. Qed.

Lemma same_shadow_maps_nb c p p' :
  same_shadow_maps c p p' → nb_available c p' = nb_available c p.
Proof. unfold same_shadow_maps. destruct c; cbn; by intros [= ->]. Qed.

(** The shadow-mapped pass of a category is the update of its structured
    buffer followed by the [Setup...] member of the category. *)
Lemma shadow_pass_steps c f w o w' :
  ProcessLightsWithShadowMapping c f w = (o, w') →
  ∃ w1, SetupShadowMaps c w1 = (o, w')
        ∧ device w1 = device w ∧ context w1 = context w
        ∧ m_light_buffer (pass w1) = m_light_buffer (pass w)
        ∧ (∀ c', same_lights c' (pass w) (pass w1))
        ∧ (∀ c', c' ≠ c → same_sm_lights c' (pass w) (pass w1))
        ∧ (∀ c', same_shadow_maps c' (pass w) (pass w1))
        ∧ (∀ c', nb_available c' (pass w1) = nb_available c' (pass w))
        ∧ (∀ c', sm_lights_srv c' (pass w1) = sm_lights_srv c' (pass w))
        ∧ nb_sm_lights c (pass w1) = nb_requested c f
        ∧ trace w1 = push_back (trace w)
              (EvUpdateStructuredBuffer (sm_lights_srv c (pass w))
                 (nb_requested c f)).
Proof.
  intros Hrun.
  destruct c; cbn [ProcessLightsWithShadowMapping nb_requested] in *;
    unfold ProcessLightsWithShadowMapping_directional,
      ProcessLightsWithShadowMapping_omni, ProcessLightsWithShadowMapping_spot in Hrun;
    match type of Hrun with
    | context [let '(_, _) := ?loop in _] => destruct loop as [buffer cameras]
    end;
    erewrite bind_run in Hrun by apply UpdateData_run;
    eexists; (split; [exact Hrun|]); cbn; members_unchanged.
Qed.

Lemma SetupShadowMaps_dev_fails c w o w' :
  SetupShadowMaps c w = (o, w') → dev_fails (device w') = dev_fails (device w).
Proof.
  destruct c; cbn [SetupShadowMaps];
    unfold SetupDirectionalShadowMaps, SetupOmniShadowMaps, SetupSpotShadowMaps;
    unfold bind at 1, get at 1;
    match goal with
    | |- context [?a <? ?b] => destruct (a <? b)
    end;
    try (by intros [= <- <-]);
    unfold MakeUnique, ShadowMapBuffer_ctor, ShadowCubeMapBuffer_ctor,
      bind, CreateResources, ret, on_pass, modify;
    destruct (dev_fails _ _); by intros [= <- <-].
Qed.

Lemma shadow_pass_spec c f w o w' :
  ProcessLightsWithShadowMapping c f w = (o, w') →
  context w' = context w
  ∧ m_light_buffer (pass w') = m_light_buffer (pass w)
  ∧ (∀ c', same_lights c' (pass w) (pass w'))
  ∧ (∀ c', c' ≠ c → same_sm_lights c' (pass w) (pass w'))
  ∧ (∀ c', c' ≠ c → same_shadow_maps c' (pass w) (pass w'))
  ∧ (∀ c', sm_lights_srv c' (pass w') = sm_lights_srv c' (pass w))
  ∧ nb_sm_lights c (pass w') = nb_requested c f
  ∧ ( (nb_requested c f ≤ nb_available c (pass w)
       ∧ o = Returned tt
       ∧ device w' = device w
       ∧ same_shadow_maps c (pass w) (pass w')
       ∧ trace w' = push_back (trace w)
                      (EvUpdateStructuredBuffer (sm_lights_srv c (pass w))
                         (nb_requested c f)))
    ∨ (nb_available c (pass w) < nb_requested c f
       ∧ dev_fails (device w) (dev_requests (device w)) = true
       ∧ o = Thrown ResourceCreationFailed
       ∧ same_shadow_maps c (pass w) (pass w')
       ∧ trace w' = push_back
                      (push_back (trace w)
                         (EvUpdateStructuredBuffer (sm_lights_srv c (pass w))
                            (nb_requested c f)))
                      (EvMakeUnique false))
    ∨ (nb_available c (pass w) < nb_requested c f
       ∧ dev_fails (device w) (dev_requests (device w)) = false
       ∧ o = Returned tt
       ∧ nb_available c (pass w') = nb_requested c f
       ∧ nb_slices c (pass w') = slices_per_map c * nb_requested c f
       ∧ trace w' = push_back
                      (push_back (trace w)
                         (EvUpdateStructuredBuffer (sm_lights_srv c (pass w))
                            (nb_requested c f)))
                      (EvMakeUnique true))).
Proof.
  intros Hrun.
  destruct (shadow_pass_steps _ _ _ _ _ Hrun)
    as (w1 & Hsetup & Hdev & Hctx & Hlb & Hl & Hsml & Hsm & Hav & Hsrv & Hnb & Htr).
  destruct (SetupShadowMaps_spec _ _ _ _ Hsetup)
    as (Hctx' & Hlb' & Hl' & Hsml' & Hsm' & Hcases).
  rewrite Hnb, Hav, Hdev in Hcases.
  split; [congruence|]. split; [congruence|].
  split; [intros c'; eapply same_lights_trans; eauto|].
  split; [intros c' Hc'; eapply same_sm_lights_trans; eauto|].
  split; [intros c' Hc'; eapply same_shadow_maps_trans; eauto|].
  split; [intros c'; rewrite <- Hsrv; by apply same_sm_lights_srv|].
  split; [rewrite <- Hnb; by apply same_sm_lights_nb|].
  destruct Hcases
    as [(Hle & -> & ->)|[(Hlt & Hfail & -> & ->)|(Hlt & Hfail & -> & Hnew & Hsl & Htr')]].
  - left. repeat split; try done; apply Hsm.
  - right; left. repeat split; try done; cbn; try apply Hsm; by rewrite Htr.
  - right; right. repeat split; try done; by rewrite Htr', Htr.
Qed.

(** ** The shadow maps grow and never shrink *)

Lemma shadow_pass_capacity c f w w' :
  ProcessLightsWithShadowMapping c f w = (Returned tt, w') →
  nb_available c (pass w') = Nat.max (nb_available c (pass w)) (nb_requested c f).
Proof.
  intros Hrun.
  destruct (shadow_pass_spec _ _ _ _ _ Hrun) as (_ & _ & _ & _ & _ & _ & _ & Hcases).
  destruct Hcases as [(Hle & _ & _ & Hsame & _)|[(_ & _ & [=] & _)|(Hlt & _ & _ & Hnew & _)]].
  - rewrite (same_shadow_maps_nb _ _ _ Hsame). lia.
  - lia.
Qed.

Lemma shadow_pass_replaced c f w o w' :
  ProcessLightsWithShadowMapping c f w = (o, w') →
  ¬ same_shadow_maps c (pass w) (pass w') →
  nb_available c (pass w) < nb_requested c f.
Proof.
  intros Hrun Hdiff.
  destruct (shadow_pass_spec _ _ _ _ _ Hrun) as (_ & _ & _ & _ & _ & _ & _ & Hcases).
  destruct Hcases as [(_ & _ & _ & Hsame & _)|[(_ & _ & _ & Hsame & _)|(Hlt & _)]];
    done.
Qed.

Lemma shadow_pass_enough c f w :
  nb_requested c f ≤ nb_available c (pass w) →
  ∃ w', ProcessLightsWithShadowMapping c f w = (Returned tt, w')
        ∧ same_shadow_maps c (pass w) (pass w')
        ∧ device w' = device w.
Proof.
  intros Hle.
  destruct (ProcessLightsWithShadowMapping c f w) as [o w'] eqn:Hrun.
  destruct (shadow_pass_spec _ _ _ _ _ Hrun) as (_ & _ & _ & _ & _ & _ & _ & Hcases).
  destruct Hcases as [(_ & -> & Hdev & Hsame & _)|[(Hlt & _)|(Hlt & _)]]; [|lia..].
  by exists w'.
Qed.

Lemma list_max_map_lt {A} (h : A → nat) l n :
  list_max (map h l) < n → Forall (λ x, h x < n) l.
Proof.
  induction l as [|x l IH]; simpl; intros Hlt; constructor.
  - lia.
  - apply IH. lia.
Qed.

(** C1, as amended.  Over any sequence of frames that the shadow-mapped
    pass of a category goes through without a failed construction, the
    capacity of the shadow maps of the category is, after the last frame,
    the maximum of the capacity before the first frame and of the requests
    of the frames; in a further frame the buffer object is replaced only if
    the request of that frame exceeds that capacity and every earlier
    request; and a request within the capacity returns and leaves the buffer
    object, and the device, as they are. *)
Theorem grow_only_capacity c fs w w' :
  ProcessFrames c fs w = (Returned tt, w') →
  nb_available c (pass w')
  = Nat.max (nb_available c (pass w)) (list_max (map (nb_requested c) fs))
  ∧ (∀ f o w'',
       ProcessLightsWithShadowMapping c f w' = (o, w'') →
       ¬ same_shadow_maps c (pass w') (pass w'') →
       nb_available c (pass w) < nb_requested c f
       ∧ Forall (λ g, nb_requested c g < nb_requested c f) fs)
  ∧ (∀ f,
       nb_requested c f ≤ nb_available c (pass w') →
       ∃ w'', ProcessLightsWithShadowMapping c f w' = (Returned tt, w'')
              ∧ same_shadow_maps c (pass w') (pass w'')
              ∧ device w'' = device w').
Proof.
  intros Hrun.
  assert (Hcap : nb_available c (pass w')
                 = Nat.max (nb_available c (pass w))
                           (list_max (map (nb_requested c) fs))).
  { revert w Hrun. induction fs as [|f fs IH]; intros w Hrun.
    - injection Hrun as <-. simpl. lia.
    - cbn [ProcessFrames] in Hrun.
      apply bind_Returned in Hrun as ([] & w1 & Hf & Hfs).
      rewrite (IH _ Hfs), (shadow_pass_capacity _ _ _ _ Hf).
      change (list_max (map (nb_requested c) (f :: fs)))
        with (Nat.max (nb_requested c f) (list_max (map (nb_requested c) fs))).
      lia. }
  split; [done|]. split.
  - intros f o w'' Hf Hdiff.
    pose proof (shadow_pass_replaced _ _ _ _ _ Hf Hdiff) as Hlt.
    rewrite Hcap in Hlt. split; [lia|].
    apply list_max_map_lt. lia.
  - intros f Hle. by apply shadow_pass_enough.
Qed.

(** ** A construction that fails *)

Lemma Render_surfaces c f w0 w e w' :
  RenderUpTo c f w0 = (Returned tt, w) →
  ProcessLightsWithShadowMapping c f w = (Thrown e, w') →
  RenderFrame f w0 = (Thrown e, w').
Proof.
  unfold RenderUpTo, RenderFrame, Render. intros Hup Hthrow.
  apply bind_Returned in Hup as ([] & w1 & H1 & Hup).
  apply bind_Returned in Hup as ([] & w2 & H2 & Hup).
  apply bind_Returned in Hup as ([] & w3 & H3 & Hup).
  apply bind_Returned in Hup as ([] & w4 & H4 & Hup).
  cbn [ProcessLights ProcessLightsWithShadowMapping] in *.
  rewrite (bind_run _ _ _ _ _ H1), (bind_run _ _ _ _ _ H2),
    (bind_run _ _ _ _ _ H3), (bind_run _ _ _ _ _ H4).
  destruct c.
  - injection Hup as <-. by apply bind_Thrown.
  - rewrite (bind_run _ _ _ _ _ Hup). by apply bind_Thrown.
  - apply bind_Returned in Hup as ([] & w5 & H5 & Hup).
    rewrite (bind_run _ _ _ _ _ H5), (bind_run _ _ _ _ _ Hup). by apply bind_Thrown.
Qed.

(** C6.  The shadow-mapped pass of a category throws exactly when the
    capacity does not suffice and the device refuses the construction of the
    replacement; the shadow maps of every category are then the ones held
    before, and [Render] throws the same exception to its caller. *)
Theorem failed_construction_keeps_shadow_maps c f w o w' :
  ProcessLightsWithShadowMapping c f w = (o, w') →
  (o = Thrown ResourceCreationFailed
   ↔ nb_available c (pass w) < nb_requested c f
     ∧ dev_fails (device w) (dev_requests (device w)) = true)
  ∧ (∀ e, o = Thrown e →
       (∀ c', same_shadow_maps c' (pass w) (pass w'))
       ∧ (∀ w0, RenderUpTo c f w0 = (Returned tt, w) →
                RenderFrame f w0 = (Thrown e, w'))).
Proof.
  intros Hrun.
  destruct (shadow_pass_spec _ _ _ _ _ Hrun) as (_ & _ & _ & _ & Hothers & _ & _ & Hcases).
  split.
  - destruct Hcases as [(Hle & -> & _)|[(Hlt & Hfail & -> & _)|(Hlt & Hfail & -> & _)]].
    + split; [done|]. intros [Hlt _]. lia.
    + done.
    + split; [done|]. intros [_ Hfail']. congruence.
  - intros e ->. split.
    + intros c'. destruct (decide (c' = c)) as [->|Hne]; [|by apply Hothers].
      destruct Hcases as [(_ & [=] & _)|[(_ & _ & _ & Hsame & _)|(_ & _ & [=] & _)]].
      done.
    + intros w0 Hup. by eapply Render_surfaces.
Qed.

(** ** The cameras are local *)

Lemma shadow_pass_packed_elements c f f' w :
  same_packed_elements c f f' →
  ProcessLightsWithShadowMapping c f w = ProcessLightsWithShadowMapping c f' w.
Proof.
  destruct c; cbn [same_packed_elements ProcessLightsWithShadowMapping];
    unfold ProcessLightsWithShadowMapping_directional,
      ProcessLightsWithShadowMapping_omni, ProcessLightsWithShadowMapping_spot;
    repeat match goal with
           | |- context [let '(_, _) := ?loop in _] => destruct loop as [? ?]
           end;
    cbn [fst]; by intros ->.
Qed.

(** C10.  The shadow-mapped pass of a category leaves the bindings of the
    context, the aggregate light buffer, the three structured buffers
    without shadow mapping and the structured buffers and shadow maps of
    the other two categories as they are; and what it does is fixed by the
    element sequence it has packed, whatever the cameras it has computed. *)
Theorem shadow_pass_effects c f w o w' :
  ProcessLightsWithShadowMapping c f w = (o, w') →
  context w' = context w
  ∧ m_light_buffer (pass w') = m_light_buffer (pass w)
  ∧ (∀ c', same_lights c' (pass w) (pass w'))
  ∧ (∀ c', c' ≠ c → same_sm_lights c' (pass w) (pass w')
                     ∧ same_shadow_maps c' (pass w) (pass w'))
  ∧ (∀ f', same_packed_elements c f f' →
           ProcessLightsWithShadowMapping c f' w = (o, w')).
Proof.
  intros Hrun.
  destruct (shadow_pass_spec _ _ _ _ _ Hrun) as (Hctx & Hlb & Hl & Hsml & Hsm & _).
  repeat split; try done.
  - by apply Hsml.
  - by apply Hsm.
  - intros f' Hsame. by rewrite <- (shadow_pass_packed_elements _ _ _ _ Hsame).
Qed.

(** ** A frame that goes through *)

Lemma UnbindSMSs_run w :
  UnbindSMSs w
  = (Returned tt,
     {| device := device w;
        context := BindSRVs CS SLOT_SRV_SHADOW_MAPS_START [None; None; None]
                     (BindSRVs PS SLOT_SRV_SHADOW_MAPS_START [None; None; None]
                        (context w));
        pass := pass w;
        trace := push_back
                   (push_back (trace w)
                      (EvBindSRVs PS SLOT_SRV_SHADOW_MAPS_START [None; None; None]))
                   (EvBindSRVs CS SLOT_SRV_SHADOW_MAPS_START [None; None; None]) |}).
Proof. reflexivity. Qed.

Lemma shadow_pass_Returned c f w w' :
  ProcessLightsWithShadowMapping c f w = (Returned tt, w') →
  context w' = context w
  ∧ m_light_buffer (pass w') = m_light_buffer (pass w)
  ∧ (∀ c', same_lights c' (pass w) (pass w'))
  ∧ (∀ c', c' ≠ c → same_sm_lights c' (pass w) (pass w'))
  ∧ (∀ c', c' ≠ c → same_shadow_maps c' (pass w) (pass w'))
  ∧ (∀ c', sm_lights_srv c' (pass w') = sm_lights_srv c' (pass w))
  ∧ nb_sm_lights c (pass w') = nb_requested c f
  ∧ trace w' = trace w ++ shadow_pass_events c (pass w) f.
Proof.
  intros Hrun.
  destruct (shadow_pass_spec _ _ _ _ _ Hrun)
    as (Hctx & Hlb & Hl & Hsml & Hsm & Hsrv & Hnb & Hcases).
  repeat split; try done. unfold shadow_pass_events, push_back in *.
  destruct Hcases as [(Hle & _ & _ & _ & ->)|[(_ & _ & [=] & _)|(Hlt & _ & _ & _ & _ & ->)]].
  - by destruct (Nat.ltb_spec (nb_available c (pass w)) (nb_requested c f)); [lia|].
  - destruct (Nat.ltb_spec (nb_available c (pass w)) (nb_requested c f)); [|lia].
    by rewrite <- app_assoc.
Qed.

Lemma lights_pass_spec c f w :
  ∃ w', ProcessLights c f w = (Returned tt, w')
        ∧ device w' = device w
        ∧ context w' = context w
        ∧ m_light_buffer (pass w') = m_light_buffer (pass w)
        ∧ (∀ c', c' ≠ c → same_lights c' (pass w) (pass w'))
        ∧ (∀ c', lights_srv c' (pass w') = lights_srv c' (pass w))
        ∧ (∀ c', same_sm_lights c' (pass w) (pass w'))
        ∧ (∀ c', same_shadow_maps c' (pass w) (pass w'))
        ∧ nb_lights c (pass w') = nb_packed c f
        ∧ trace w' = trace w ++ [EvUpdateStructuredBuffer (lights_srv c (pass w))
                                   (nb_packed c f)].
Proof.
  destruct c; (eexists; split; [apply UpdateData_run|]); cbn; members_unchanged.
Qed.

Lemma lights_pass_Returned c f w o w' :
  ProcessLights c f w = (o, w') →
  o = Returned tt
  ∧ device w' = device w
  ∧ context w' = context w
  ∧ m_light_buffer (pass w') = m_light_buffer (pass w)
  ∧ (∀ c', c' ≠ c → same_lights c' (pass w) (pass w'))
  ∧ (∀ c', lights_srv c' (pass w') = lights_srv c' (pass w))
  ∧ (∀ c', same_sm_lights c' (pass w) (pass w'))
  ∧ (∀ c', same_shadow_maps c' (pass w) (pass w'))
  ∧ nb_lights c (pass w') = nb_packed c f
  ∧ trace w' = trace w ++ [EvUpdateStructuredBuffer (lights_srv c (pass w))
                             (nb_packed c f)].
Proof.
  destruct (lights_pass_spec c f w) as (w1 & -> & Hspec). by intros [= <- <-].
Qed.

(** Adds the instances at the three categories of what is known of every
    category, or of every category but one. *)
Ltac at_each_category :=
  repeat match goal with
         | H : ∀ c' : LightCategory, _ ≠ _ → _ |- _ =>
             try (assert (H0 := H Directional ltac:(discriminate)); revert H0);
             try (assert (H0 := H Omni ltac:(discriminate)); revert H0);
             try (assert (H0 := H Spot ltac:(discriminate)); revert H0);
             clear H
         | H : ∀ c' : LightCategory, _ |- _ =>
             generalize (H Directional), (H Omni), (H Spot); clear H
         end;
  intros;
  cbn [same_lights same_sm_lights same_shadow_maps shadow_maps
       nb_lights nb_sm_lights nb_available lights_srv sm_lights_srv
       nb_slices] in *.

Lemma RenderFrame_Returned f w w' :
  RenderFrame f w = (Returned tt, w') →
  ∃ w7,
    bind (ProcessLightsData (frame_scene f)) (λ _, BindLBuffer) w7 = (Returned tt, w')
    ∧ context w7
      = BindSRVs CS SLOT_SRV_SHADOW_MAPS_START [None; None; None]
          (BindSRVs PS SLOT_SRV_SHADOW_MAPS_START [None; None; None] (context w))
    ∧ m_light_buffer (pass w7) = m_light_buffer (pass w)
    ∧ (∀ c, nb_lights c (pass w7) = nb_packed c f)
    ∧ (∀ c, nb_sm_lights c (pass w7) = nb_requested c f)
    ∧ (∀ c, lights_srv c (pass w7) = lights_srv c (pass w))
    ∧ (∀ c, sm_lights_srv c (pass w7) = sm_lights_srv c (pass w))
    ∧ trace w7
      = trace w
        ++ [ EvUpdateStructuredBuffer (lights_srv Directional (pass w))
               (nb_packed Directional f);
             EvUpdateStructuredBuffer (lights_srv Omni (pass w)) (nb_packed Omni f);
             EvUpdateStructuredBuffer (lights_srv Spot (pass w)) (nb_packed Spot f);
             EvBindSRVs PS SLOT_SRV_SHADOW_MAPS_START [None; None; None];
             EvBindSRVs CS SLOT_SRV_SHADOW_MAPS_START [None; None; None] ]
        ++ shadow_pass_events Directional (pass w) f
        ++ shadow_pass_events Omni (pass w) f
        ++ shadow_pass_events Spot (pass w) f.
Proof.
  unfold RenderFrame, Render. intros Hrun.
  apply bind_Returned in Hrun as ([] & w1 & H1 & Hrun).
  apply bind_Returned in Hrun as ([] & w2 & H2 & Hrun).
  apply bind_Returned in Hrun as ([] & w3 & H3 & Hrun).
  rewrite (bind_run _ _ _ _ _ (UnbindSMSs_run _)) in Hrun.
  apply bind_Returned in Hrun as ([] & w5 & H5 & Hrun).
  apply bind_Returned in Hrun as ([] & w6 & H6 & Hrun).
  apply bind_Returned in Hrun as ([] & w7 & H7 & Hrun).
  apply (lights_pass_Returned Directional f) in H1
    as (_ & Hd1 & Hc1 & Hb1 & Hl1 & Hs1 & Hm1 & Ha1 & Hn1 & Ht1).
  apply (lights_pass_Returned Omni f) in H2
    as (_ & Hd2 & Hc2 & Hb2 & Hl2 & Hs2 & Hm2 & Ha2 & Hn2 & Ht2).
  apply (lights_pass_Returned Spot f) in H3
    as (_ & Hd3 & Hc3 & Hb3 & Hl3 & Hs3 & Hm3 & Ha3 & Hn3 & Ht3).
  apply (shadow_pass_Returned Directional f) in H5
    as (Hc5 & Hb5 & Hl5 & Hm5 & Ha5 & Hs5 & Hn5 & Ht5).
  apply (shadow_pass_Returned Omni f) in H6
    as (Hc6 & Hb6 & Hl6 & Hm6 & Ha6 & Hs6 & Hn6 & Ht6).
  apply (shadow_pass_Returned Spot f) in H7
    as (Hc7 & Hb7 & Hl7 & Hm7 & Ha7 & Hs7 & Hn7 & Ht7).
  cbn [device context pass trace] in *.
  exists w7. split; [done|].
  unfold shadow_pass_events, push_back in *.
  at_each_category. unfold same_shadow_maps in *.
  cbn [shadow_maps] in *. clear Hrun.
  unfold GetNumberOfDirectionalLightsWithShadowMapping,
    GetNumberOfOmniLightsWithShadowMapping,
    GetNumberOfSpotLightsWithShadowMapping in *.
  split; [by rewrite Hc7, Hc6, Hc5, Hc3, Hc2, Hc1|].
  split; [by rewrite Hb7, Hb6, Hb5, Hb3, Hb2, Hb1|].
  split; [intros []; cbn [nb_lights]; congruence|].
  split; [intros []; cbn [nb_sm_lights];
          unfold GetNumberOfDirectionalLightsWithShadowMapping,
            GetNumberOfOmniLightsWithShadowMapping,
            GetNumberOfSpotLightsWithShadowMapping; congruence|].
  split; [intros []; cbn [lights_srv]; congruence|].
  split; [intros []; cbn [sm_lights_srv]; congruence|].
  rewrite Ht7, Ht6, Ht5, Ht3, Ht2, Ht1.
  rewrite <- !app_assoc. cbn [app].
  assert (E2 : StructuredBuffer_Get (m_omni_lights (pass w1))
               = StructuredBuffer_Get (m_omni_lights (pass w))) by congruence.
  assert (E3 : StructuredBuffer_Get (m_spot_lights (pass w2))
               = StructuredBuffer_Get (m_spot_lights (pass w))) by congruence.
  assert (E5 : StructuredBuffer_Get (m_sm_directional_lights (pass w3))
               = StructuredBuffer_Get (m_sm_directional_lights (pass w))) by congruence.
  assert (E6 : StructuredBuffer_Get (m_sm_omni_lights (pass w5))
               = StructuredBuffer_Get (m_sm_omni_lights (pass w))) by congruence.
  assert (E7 : StructuredBuffer_Get (m_sm_spot_lights (pass w6))
               = StructuredBuffer_Get (m_sm_spot_lights (pass w))) by congruence.
  assert (A5 : m_directional_sms (pass w3) = m_directional_sms (pass w)) by congruence.
  assert (A6 : m_omni_sms (pass w5) = m_omni_sms (pass w)) by congruence.
  assert (A7 : m_spot_sms (pass w6) = m_spot_sms (pass w)) by congruence.
  by rewrite E2, E3, E5, E6, E7, A5, A6, A7.
Qed.

Lemma ConstantBuffer_UpdateData_copies {DataT} (data : DataT) b :
  ConstantBuffer_copies (ConstantBuffer_UpdateData data b)
  = ConstantBuffer_copies b ++ [data].
Proof.
  unfold ConstantBuffer_copies, ConstantBuffer_UpdateData, memcpy, BufferLock_dtor,
    BufferLock_ctor.
  cbn [cb_accesses]. by rewrite !omap_app, !app_nil_r.
Qed.

Lemma finish_frame scene w o w' :
  bind (ProcessLightsData scene) (λ _, BindLBuffer) w = (o, w') →
  o = Returned tt
  ∧ device w' = device w
  ∧ (∃ data, m_light_buffer (pass w')
             = ConstantBuffer_UpdateData data (m_light_buffer (pass w))
             ∧ (∀ c, count_field c data = static_cast_uint32_t (nb_lights c (pass w)))
             ∧ (∀ c, sm_count_field c data
                     = static_cast_uint32_t (nb_sm_lights c (pass w))))
  ∧ (∀ c, same_shadow_maps c (pass w) (pass w'))
  ∧ context w'
    = BindSRVs CS SLOT_SRV_LIGHTS_START (lbuffer_srvs (pass w'))
        (BindSRVs PS SLOT_SRV_LIGHTS_START (lbuffer_srvs (pass w'))
           (BindConstantBuffer CS SLOT_CBUFFER_LIGHTING
              (ConstantBuffer_Get (m_light_buffer (pass w')))
              (BindConstantBuffer PS SLOT_CBUFFER_LIGHTING
                 (ConstantBuffer_Get (m_light_buffer (pass w'))) (context w))))
  ∧ trace w'
    = trace w
      ++ [ EvUpdateConstantBuffer (ConstantBuffer_Get (m_light_buffer (pass w)));
           EvBindConstantBuffer PS SLOT_CBUFFER_LIGHTING
             (ConstantBuffer_Get (m_light_buffer (pass w)));
           EvBindConstantBuffer CS SLOT_CBUFFER_LIGHTING
             (ConstantBuffer_Get (m_light_buffer (pass w)));
           EvBindSRVs PS SLOT_SRV_LIGHTS_START (lbuffer_srvs (pass w'));
           EvBindSRVs CS SLOT_SRV_LIGHTS_START (lbuffer_srvs (pass w')) ].
Proof.
  intros [= <- <-]. cbn [device context pass trace].
  split; [done|]. split; [done|]. split.
  { eexists. split; [reflexivity|]. split; by intros []. }
  split; [by intros []|]. split; [done|].
  unfold push_back. by rewrite <- !app_assoc.
Qed.

Lemma bind_views_before srvs start (slots : gmap nat handle) slot :
  slot < start → bind_views start srvs slots !! slot = slots !! slot.
Proof.
  revert start slots. induction srvs as [|srv srvs IH]; intros start slots Hlt; [done|].
  cbn [bind_views]. rewrite IH by lia.
  destruct srv; [apply lookup_insert_ne | apply lookup_delete_ne]; lia.
Qed.

Lemma bind_views_lookup srvs start (slots : gmap nat handle) i view :
  srvs !! i = Some view → bind_views start srvs slots !! (start + i) = view.
Proof.
  revert start slots i.
  induction srvs as [|srv srvs IH]; intros start slots i Hi; [done|].
  cbn [bind_views]. destruct i as [|i].
  - injection Hi as ->. rewrite Nat.add_0_r, bind_views_before by lia.
    destruct view; [apply lookup_insert_eq | apply lookup_delete_eq].
  - replace (start + S i) with (S start + i) by lia. by apply IH.
Qed.

Lemma bound_to_both_stages start srvs start0 srvs0 ctx :
  (∀ stage i view,
     srvs !! i = Some view →
     bound_srv stage (BindSRVs CS start srvs (BindSRVs PS start srvs ctx)) (start + i)
     = view)
  ∧ (∀ stage slot buffer,
       bound_cbuffer stage
         (BindSRVs CS start0 srvs0
            (BindSRVs PS start0 srvs0
               (BindConstantBuffer CS slot buffer
                  (BindConstantBuffer PS slot buffer ctx)))) slot
       = Some buffer).
Proof.
  split.
  - intros [] i view Hi; cbn; by apply bind_views_lookup.
  - intros [] slot buffer; cbn; apply lookup_insert_eq.
Qed.

(** On a device that never refuses a request every frame goes through. *)
Lemma shadow_pass_returns c f w :
  (∀ k, dev_fails (device w) k = false) →
  ∃ w', ProcessLightsWithShadowMapping c f w = (Returned tt, w')
        ∧ ∀ k, dev_fails (device w') k = false.
Proof.
  intros Hnever.
  destruct (ProcessLightsWithShadowMapping c f w) as [o w'] eqn:Hrun.
  destruct (shadow_pass_steps _ _ _ _ _ Hrun) as (w1 & Hsetup & Hdev & _).
  pose proof (SetupShadowMaps_dev_fails _ _ _ _ Hsetup) as Hsame.
  destruct (shadow_pass_spec _ _ _ _ _ Hrun) as (_ & _ & _ & _ & _ & _ & _ & Hcases).
  exists w'. split.
  - destruct Hcases as [(_ & -> & _)|[(_ & Hfail & _)|(_ & _ & -> & _)]]; [done| |done].
    rewrite Hnever in Hfail. discriminate.
  - intros k. rewrite Hsame, Hdev. apply Hnever.
Qed.

Lemma RenderFrame_returns f w :
  (∀ k, dev_fails (device w) k = false) →
  ∃ w', RenderFrame f w = (Returned tt, w').
Proof.
  intros Hnever. unfold RenderFrame, Render.
  destruct (lights_pass_spec Directional f w) as (w1 & H1 & Hd1 & _).
  destruct (lights_pass_spec Omni f w1) as (w2 & H2 & Hd2 & _).
  destruct (lights_pass_spec Spot f w2) as (w3 & H3 & Hd3 & _).
  cbn [ProcessLights] in H1, H2, H3.
  rewrite (bind_run _ _ _ _ _ H1), (bind_run _ _ _ _ _ H2),
    (bind_run _ _ _ _ _ H3), (bind_run _ _ _ _ _ (UnbindSMSs_run w3)).
  match goal with
  | |- ∃ w', bind _ _ ?w4 = _ =>
      destruct (shadow_pass_returns Directional f w4) as (w5 & H5 & Hn5);
      [cbn [device]; intros k; rewrite Hd3, Hd2, Hd1; apply Hnever|]
  end.
  destruct (shadow_pass_returns Omni f w5 Hn5) as (w6 & H6 & Hn6).
  destruct (shadow_pass_returns Spot f w6 Hn6) as (w7 & H7 & Hn7).
  cbn [ProcessLightsWithShadowMapping] in H5, H6, H7.
  rewrite (bind_run _ _ _ _ _ H5), (bind_run _ _ _ _ _ H6), (bind_run _ _ _ _ _ H7).
  destruct (bind (ProcessLightsData (frame_scene f)) (λ _, BindLBuffer) w7)
    as [o w'] eqn:Hfinish.
  apply finish_frame in Hfinish as (-> & _). by exists w'.
Qed.

(** C4.  In a frame in which [Render] returns, exactly one [LightBuffer] is
    handed to [UpdateData] and copied; each of its six count fields is the
    length, cast to 32 bits, of the element sequence the corresponding
    packing pass builds in this frame, hence that length itself when it is
    below 2^32; for the omni lights and the spotlights this is the number of
    lights that survive culling, not the length of the list of the scene.
    The property is about the fields as they are written: [UpdateData]
    copies them once its lock is gone, and what the buffer then holds on the
    GPU is not stated. *)
Theorem count_fields_after_frame f w w' :
  RenderFrame f w = (Returned tt, w') →
  (∃ data,
     ConstantBuffer_copies (m_light_buffer (pass w'))
     = ConstantBuffer_copies (m_light_buffer (pass w)) ++ [data]
     ∧ (∀ c, count_field c data = static_cast_uint32_t (nb_packed c f)
             ∧ sm_count_field c data = static_cast_uint32_t (nb_requested c f))
     ∧ (∀ c, (Z.of_nat (nb_packed c f) < 2 ^ 32)%Z →
             count_field c data = Z.of_nat (nb_packed c f))
     ∧ (∀ c, (Z.of_nat (nb_requested c f) < 2 ^ 32)%Z →
             sm_count_field c data = Z.of_nat (nb_requested c f)))
  ∧ nb_packed Directional f = length (GetDirectionalLights (frame_scene f))
  ∧ nb_packed Omni f
    = length (List.filter (omni_survives (frame_world_to_projection f))
                (GetOmniLights (frame_scene f)))
  ∧ nb_packed Spot f
    = length (List.filter (spot_survives (frame_world_to_projection f))
                (GetSpotLights (frame_scene f)))
  ∧ nb_requested Directional f
    = length (GetDirectionalLightsWithShadowMapping (frame_scene f))
  ∧ nb_requested Omni f
    = length (List.filter (omni_survives (frame_world_to_projection f))
                (GetOmniLightsWithShadowMapping (frame_scene f)))
  ∧ nb_requested Spot f
    = length (List.filter (spot_survives (frame_world_to_projection f))
                (GetSpotLightsWithShadowMapping (frame_scene f))).
Proof.
  intros Hrun.
  apply RenderFrame_Returned in Hrun
    as (w7 & Hfinish & _ & Hlb & Hnb & Hsm & _).
  apply finish_frame in Hfinish as (_ & _ & (data & Hdata & Hc & Hsmc) & _).
  split.
  - exists data. split; [by rewrite Hdata, ConstantBuffer_UpdateData_copies, Hlb|].
    assert (Hfields : ∀ c, count_field c data = static_cast_uint32_t (nb_packed c f)
                           ∧ sm_count_field c data
                             = static_cast_uint32_t (nb_requested c f)).
    { intros c. by rewrite Hc, Hsmc, Hnb, Hsm. }
    split; [done|].
    split; intros c Hlt; destruct (Hfields c) as [Hfield Hsmfield];
      rewrite ?Hfield, ?Hsmfield;
      unfold static_cast_uint32_t; apply Z.mod_small; lia.
  - cbn [nb_packed nb_requested].
    rewrite ProcessLights_directional_loop_map,
      ProcessLightsWithShadowMapping_directional_loop_map,
      ProcessLights_omni_loop_length, ProcessLights_spot_loop_length,
      ProcessLightsWithShadowMapping_omni_loop_length,
      ProcessLightsWithShadowMapping_spot_loop_length.
    cbn [fst]. by rewrite !length_map.
Qed.


(** ** The capacity is never zero *)

Lemma grows_refl this : grows this this.
Proof. intros c. by left. Qed.

Lemma same_shadow_maps_slices c p p' :
  same_shadow_maps c p p' → nb_slices c p' = nb_slices c p.
Proof. unfold same_shadow_maps. destruct c; cbn; by intros [= ->]. Qed.

Lemma grows_trans p1 p2 p3 : grows p1 p2 → grows p2 p3 → grows p1 p3.
Proof.
  intros H12 H23 c. destruct (H12 c) as [Hs12|[Hlt12 Hsl12]], (H23 c) as [Hs23|[Hlt23 Hsl23]].
  - left. by eapply same_shadow_maps_trans.
  - right. rewrite <- (same_shadow_maps_nb _ _ _ Hs12). done.
  - right. rewrite (same_shadow_maps_nb _ _ _ Hs23), (same_shadow_maps_slices _ _ _ Hs23).
    done.
  - right. split; [lia|done].
Qed.

Lemma shadow_pass_grows c f w o w' :
  ProcessLightsWithShadowMapping c f w = (o, w') → grows (pass w) (pass w').
Proof.
  intros Hrun c'.
  destruct (shadow_pass_spec _ _ _ _ _ Hrun) as (_ & _ & _ & _ & Hothers & _ & _ & Hcases).
  destruct (decide (c' = c)) as [->|Hne]; [|left; by apply Hothers].
  destruct Hcases
    as [(_ & _ & _ & Hsame & _)|[(_ & _ & _ & Hsame & _)|(Hlt & _ & _ & Hnew & Hsl & _)]];
    [by left..|].
  right. rewrite Hnew. done.
Qed.

Lemma RenderFrame_grows f w o w' :
  RenderFrame f w = (o, w') → grows (pass w) (pass w').
Proof.
  unfold RenderFrame, Render.
  pose (R := λ w w' : World, grows (pass w) (pass w')).
  assert (Htrans : ∀ x y z, R x y → R y z → R x z)
    by (intros x y z; apply grows_trans).
  assert (Hlights : ∀ c s o s', ProcessLights c f s = (o, s') → R s s').
  { intros c s o0 s' Hrun c'. left.
    apply lights_pass_Returned in Hrun as (_ & _ & _ & _ & _ & _ & _ & Hsame & _).
    apply Hsame. }
  assert (Hshadow : ∀ c s o s', ProcessLightsWithShadowMapping c f s = (o, s') → R s s')
    by (intros c s o0 s'; apply shadow_pass_grows).
  revert w o w'. change (∀ w o w', ?m w = (o, w') → _) with (∀ w o w', m w = (o, w') → R w w').
  apply bind_within; [done|apply (Hlights Directional)|intros _].
  apply bind_within; [done|apply (Hlights Omni)|intros _].
  apply bind_within; [done|apply (Hlights Spot)|intros _].
  apply bind_within; [done| |intros _].
  { intros s o s'. rewrite UnbindSMSs_run. intros [= <- <-]. apply grows_refl. }
  apply bind_within; [done|apply (Hshadow Directional)|intros _].
  apply bind_within; [done|apply (Hshadow Omni)|intros _].
  apply bind_within; [done|apply (Hshadow Spot)|intros _].
  intros s o s' Hfinish c. left.
  apply finish_frame in Hfinish as (_ & _ & _ & Hsame & _). apply Hsame.
Qed.

Lemma ShadowMapBuffer_ctor_Returned n d b d' :
  ShadowMapBuffer_ctor n d = (Returned b, d') →
  ShadowMapBuffer_GetNumberOfShadowMaps b = n.
Proof.
  unfold ShadowMapBuffer_ctor, bind, CreateResources, ret.
  destruct (dev_fails _ _); intros [= <- _]; [].
  unfold ShadowMapBuffer_GetNumberOfShadowMaps. cbn. apply length_seq.
Qed.

Lemma ShadowCubeMapBuffer_ctor_Returned n d b d' :
  ShadowCubeMapBuffer_ctor n d = (Returned b, d') →
  ShadowCubeMapBuffer_GetNumberOfShadowCubeMaps b = n
  ∧ ShadowCubeMapBuffer_GetNumberOfShadowMaps b = 6 * n.
Proof.
  unfold ShadowCubeMapBuffer_ctor, bind, CreateResources, ret.
  destruct (dev_fails _ _); intros [= <- _]; [].
  unfold ShadowCubeMapBuffer_GetNumberOfShadowCubeMaps,
    ShadowCubeMapBuffer_GetNumberOfShadowMaps.
  cbn [scm_dsvs]. rewrite length_seq. split; [|done].
  change (6 * n / 6 = n). rewrite Nat.mul_comm. by apply Nat.div_mul.
Qed.

Lemma LBufferPass_ctor_Returned d this d' :
  LBufferPass_ctor d = (Returned this, d') →
  ∀ c, nb_available c this = 1 ∧ nb_slices c this = slices_per_map c.
Proof.
  unfold LBufferPass_ctor. intros Hctor.
  repeat (apply bind_Returned in Hctor as (? & ? & ? & Hctor)).
  injection Hctor as <- _.
  repeat match goal with
         | H : ShadowMapBuffer_ctor _ _ = _ |- _ =>
             apply ShadowMapBuffer_ctor_Returned in H
         | H : ShadowCubeMapBuffer_ctor _ _ = _ |- _ =>
             apply ShadowCubeMapBuffer_ctor_Returned in H as [? ?]
         end.
  by intros [].
Qed.

Lemma reachable_grows this w : reachable this w → grows this (pass w).
Proof.
  induction 1 as [d ctx tr|w f o w' _ IH Hrun|w d ctx _ IH].
  - apply grows_refl.
  - eapply grows_trans; [exact IH|]. by eapply RenderFrame_grows.
  - exact IH.
Qed.

(** C9.  A pass is constructed with one shadow map in each category, which
    is six slices for the cube maps; and in every world the constructed pass
    can be in, the capacity of each category is at least the one it was
    constructed with, hence never 0, and the number of slices is the
    capacity, times six for the cube maps. *)
Theorem capacity_never_zero d this d' w c :
  LBufferPass_ctor d = (Returned this, d') →
  reachable this w →
  nb_available c this = 1
  ∧ nb_slices c this = slices_per_map c
  ∧ 1 ≤ nb_available c (pass w)
  ∧ 1 ≤ nb_slices c (pass w)
  ∧ nb_slices c (pass w) = slices_per_map c * nb_available c (pass w).
Proof.
  intros Hctor Hreach.
  destruct (LBufferPass_ctor_Returned _ _ _ Hctor c) as [Hone Hslices].
  split; [done|]. split; [done|].
  assert (1 ≤ nb_available c (pass w)
          ∧ nb_slices c (pass w) = slices_per_map c * nb_available c (pass w))
    as [Hle Heq].
  { destruct (reachable_grows _ _ Hreach c) as [Hsame|[Hlt Hsl]].
    - rewrite (same_shadow_maps_nb _ _ _ Hsame), (same_shadow_maps_slices _ _ _ Hsame).
      lia.
    - split; [lia|done]. }
  split; [done|]. split; [|done].
  rewrite Heq. destruct c; cbn [slices_per_map]; lia.
Qed.

(** ** What the loops pack *)

Lemma cube_faces_length (nodes : list OmniLightNode) :
  length (flat_map (λ node, map (cube_face_camera node) rotations) nodes)
  = 6 * length nodes.
Proof.
  induction nodes as [|node nodes IH]; [done|].
  cbn [flat_map]. rewrite length_app, IH, length_map. cbn [rotations length]. lia.
Qed.

(** C2.  The omni loop with shadow mapping computes, for the lights that
    survive culling and in their order, the six cameras of each: the
    world-to-object matrix of the light times one of the six rotations, and
    the projection of the camera of the light; with k survivors this makes
    6k cameras, and k packed elements. *)
Theorem omni_cameras_and_elements
    lights (world_to_projection world_to_view view_to_world : XMMATRIX) :
  let survivors := List.filter (omni_survives world_to_projection) lights in
  let result :=
    ProcessLightsWithShadowMapping_omni_loop
      lights world_to_projection world_to_view view_to_world in
  snd result = flat_map (λ node, map (cube_face_camera node) rotations) survivors
  ∧ length rotations = 6
  ∧ length (snd result) = 6 * length survivors
  ∧ length (fst result) = length survivors.
Proof.
  cbn zeta. rewrite ProcessLightsWithShadowMapping_omni_loop_cameras.
  split; [done|]. split; [done|]. split.
  - apply cube_faces_length.
  - apply ProcessLightsWithShadowMapping_omni_loop_length.
Qed.

(** C3, as amended.  The directional loop with shadow mapping computes no
    camera at all; it packs one element per light. *)
Theorem directional_cameras_empty lights (world_to_view view_to_world : XMMATRIX) :
  snd (ProcessLightsWithShadowMapping_directional_loop lights world_to_view view_to_world)
  = []
  ∧ length (fst (ProcessLightsWithShadowMapping_directional_loop
                   lights world_to_view view_to_world))
    = length lights.
Proof.
  rewrite ProcessLightsWithShadowMapping_directional_loop_map. cbn [fst snd].
  by rewrite length_map.
Qed.

Lemma StructuredBuffer_UpdateData_elements {DataT} (data : list DataT) b :
  StructuredBuffer_elements (StructuredBuffer_UpdateData data b) = data.
Proof.
  unfold StructuredBuffer_elements, StructuredBuffer_UpdateData. cbn [sb_size sb_data].
  destruct data as [|x data]; [done|]. apply firstn_all.
Qed.

(** C5.  Both directional loops pack exactly one element per light of the
    list, in the order of the list, whatever the transforms; the structured
    buffers they update then count as many elements as the list has lights;
    and the elements in use in those buffers are the packed ones: the
    element of each light of the list, in the order of the list. *)
Theorem directional_never_culled lights (world_to_view view_to_world : XMMATRIX) w :
  ProcessLights_directional_loop lights world_to_view
  = map (directional_element world_to_view) lights
  ∧ fst (ProcessLightsWithShadowMapping_directional_loop
           lights world_to_view view_to_world)
    = map (λ node, {| dsm_light := directional_element world_to_view node |}) lights
  ∧ StructuredBuffer_size
      (m_directional_lights
         (pass (snd (ProcessLights_directional lights world_to_view w))))
    = length lights
  ∧ StructuredBuffer_size
      (m_sm_directional_lights
         (pass (snd (ProcessLightsWithShadowMapping_directional
                       lights world_to_view view_to_world w))))
    = length lights
  ∧ StructuredBuffer_elements
      (m_directional_lights
         (pass (snd (ProcessLights_directional lights world_to_view w))))
    = map (directional_element world_to_view) lights
  ∧ StructuredBuffer_elements
      (m_sm_directional_lights
         (pass (snd (ProcessLightsWithShadowMapping_directional
                       lights world_to_view view_to_world w))))
    = map (λ node, {| dsm_light := directional_element world_to_view node |}) lights.
Proof.
  assert (Hplain :
    m_directional_lights (pass (snd (ProcessLights_directional lights world_to_view w)))
    = StructuredBuffer_UpdateData (map (directional_element world_to_view) lights)
        (m_directional_lights (pass w))).
  { unfold ProcessLights_directional. rewrite UpdateData_run. cbn.
    by rewrite ProcessLights_directional_loop_map. }
  assert (Hshadow :
    m_sm_directional_lights
      (pass (snd (ProcessLightsWithShadowMapping_directional
                    lights world_to_view view_to_world w)))
    = StructuredBuffer_UpdateData
        (map (λ node, {| dsm_light := directional_element world_to_view node |}) lights)
        (m_sm_directional_lights (pass w))).
  { unfold ProcessLightsWithShadowMapping_directional.
    rewrite ProcessLightsWithShadowMapping_directional_loop_map.
    rewrite (bind_run _ _ _ _ _ (UpdateData_run _ _ _ _)).
    destruct (SetupDirectionalShadowMaps _) as [o w'] eqn:Hsetup.
    apply (SetupShadowMaps_spec Directional) in Hsetup as (_ & _ & _ & Hsml & _).
    specialize (Hsml Directional). cbn in Hsml. cbn [snd]. by rewrite Hsml. }
  split; [apply ProcessLights_directional_loop_map|].
  split; [by rewrite ProcessLightsWithShadowMapping_directional_loop_map|].
  rewrite Hplain, Hshadow, !StructuredBuffer_UpdateData_elements.
  unfold StructuredBuffer_size, StructuredBuffer_UpdateData. cbn [sb_size].
  by rewrite !length_map.
Qed.

(** C7.  The spot loop with shadow mapping computes exactly one camera for
    each light that survives culling, in the order of the list: its
    world-to-light-view matrix is the world-to-object matrix of the light,
    its view-to-projection matrix is that of the camera of the light, and
    its world-to-projection matrix is the product of the two. *)
Theorem spot_cameras
    lights (world_to_projection world_to_view view_to_world : XMMATRIX) :
  let survivors := List.filter (spot_survives world_to_projection) lights in
  let result :=
    ProcessLightsWithShadowMapping_spot_loop
      lights world_to_projection world_to_view view_to_world in
  snd result
  = map (λ node,
           {| world_to_lprojection :=
                XMMatrixMultiply
                  (GetWorldToObjectMatrix (sn_GetTransform node))
                  (GetViewToProjectionMatrix (sl_GetLightCamera (sn_GetLight node)));
              world_to_lview := GetWorldToObjectMatrix (sn_GetTransform node);
              lview_to_lprojection :=
                GetViewToProjectionMatrix (sl_GetLightCamera (sn_GetLight node)) |})
        survivors
  ∧ length (snd result) = length survivors
  ∧ length (fst result) = length survivors
  ∧ Forall (λ camera,
              world_to_lprojection camera
              = XMMatrixMultiply (world_to_lview camera) (lview_to_lprojection camera))
           (snd result).
Proof.
  cbn zeta. rewrite ProcessLightsWithShadowMapping_spot_loop_cameras.
  split; [done|]. split; [by rewrite length_map|].
  split; [apply ProcessLightsWithShadowMapping_spot_loop_length|].
  apply List.Forall_map, Forall_forall. by intros node _.
Qed.

(** ** The elements of the omni lights and of the spotlights *)

(** X1.  The omni loop without shadow mapping packs the elements of the
    lights that survive culling, in the order of the list, and nothing for a
    light that is culled. *)
Theorem omni_elements_in_order
    lights (world_to_projection world_to_view : XMMATRIX) :
  ProcessLights_omni_loop lights world_to_projection world_to_view
  = map (omni_element world_to_view)
        (List.filter (omni_survives world_to_projection) lights).
Proof.
  unfold ProcessLights_omni_loop.
  enough (Hinv : ∀ l a, fold_left _ l a
                        = a ++ map (omni_element world_to_view)
                                 (List.filter (omni_survives world_to_projection) l))
    by (rewrite Hinv; done).
  clear. induction l as [|node l IHl]; intros a; cbn [fold_left List.filter map].
  - by rewrite app_nil_r.
  - rewrite IHl. unfold omni_survives.
    destruct (Cull_BS _ _); cbn [negb map]; [done|].
    unfold push_back. by rewrite <- app_assoc.
Qed.

(** X2.  The spot loop without shadow mapping packs the elements of the
    lights that survive culling, in the order of the list, and nothing for a
    light that is culled. *)
Theorem spot_elements_in_order
    lights (world_to_projection world_to_view : XMMATRIX) :
  ProcessLights_spot_loop lights world_to_projection world_to_view
  = map (spot_element world_to_view)
        (List.filter (spot_survives world_to_projection) lights).
Proof.
  unfold ProcessLights_spot_loop.
  enough (Hinv : ∀ l a, fold_left _ l a
                        = a ++ map (spot_element world_to_view)
                                 (List.filter (spot_survives world_to_projection) l))
    by (rewrite Hinv; done).
  clear. induction l as [|node l IHl]; intros a; cbn [fold_left List.filter map].
  - by rewrite app_nil_r.
  - rewrite IHl. unfold spot_survives.
    destruct (Cull_AABB _ _); cbn [negb map]; [done|].
    unfold push_back. by rewrite <- app_assoc.
Qed.

Lemma ProcessLightsWithShadowMapping_omni_loop_elements
    lights (world_to_projection world_to_view view_to_world : XMMATRIX) :
  fst (ProcessLightsWithShadowMapping_omni_loop
         lights world_to_projection world_to_view view_to_world)
  = map (omni_sm_element world_to_view view_to_world)
        (List.filter (omni_survives world_to_projection) lights).
Proof.
  unfold ProcessLightsWithShadowMapping_omni_loop.
  enough (Hinv : ∀ l a, fst (fold_left _ l a)
                        = fst a ++ map (omni_sm_element world_to_view view_to_world)
                                     (List.filter (omni_survives world_to_projection) l))
    by (rewrite Hinv; done).
  clear. induction l as [|node l IHl]; intros [buffer cameras];
    cbn [fold_left List.filter map fst].
  - by rewrite app_nil_r.
  - rewrite IHl. unfold omni_survives.
    destruct (Cull_BS _ _); cbn [negb map fst]; [done|].
    unfold push_back. by rewrite <- app_assoc.
Qed.

Lemma ProcessLightsWithShadowMapping_spot_loop_elements
    lights (world_to_projection world_to_view view_to_world : XMMATRIX) :
  fst (ProcessLightsWithShadowMapping_spot_loop
         lights world_to_projection world_to_view view_to_world)
  = map (spot_sm_element world_to_view view_to_world)
        (List.filter (spot_survives world_to_projection) lights).
Proof.
  unfold ProcessLightsWithShadowMapping_spot_loop.
  enough (Hinv : ∀ l a, fst (fold_left _ l a)
                        = fst a ++ map (spot_sm_element world_to_view view_to_world)
                                     (List.filter (spot_survives world_to_projection) l))
    by (rewrite Hinv; done).
  clear. induction l as [|node l IHl]; intros [buffer cameras];
    cbn [fold_left List.filter map fst].
  - by rewrite app_nil_r.
  - rewrite IHl. unfold spot_survives.
    destruct (Cull_AABB _ _); cbn [negb map fst]; [done|].
    unfold push_back. by rewrite <- app_assoc.
Qed.

Lemma cube_faces_lookup (nodes : list OmniLightNode) i node j rotation :
  nodes !! i = Some node →
  rotations !! j = Some rotation →
  flat_map (λ node, map (cube_face_camera node) rotations) nodes !! (6 * i + j)
  = Some (cube_face_camera node rotation).
Proof.
  revert i. induction nodes as [|node0 nodes IH]; intros i Hi Hj; [done|].
  cbn [flat_map]. destruct i as [|i].
  - injection Hi as ->. rewrite Nat.mul_0_r, Nat.add_0_l.
    rewrite lookup_app_l.
    + change (map (cube_face_camera node) rotations)
        with (cube_face_camera node <$> rotations).
      by rewrite list_lookup_fmap, Hj.
    + rewrite length_map. by apply lookup_lt_Some in Hj.
  - rewrite lookup_app_r; rewrite length_map; cbn [rotations length]; [|lia].
    replace (6 * S i + j - 6) with (6 * i + j) by lia. by apply IH.
Qed.

(** X3.  In the omni loop with shadow mapping the packed elements are those
    of the surviving lights in order, and the cameras are aligned with
    them: the camera of face j of the i-th packed light is camera 6i + j. *)
Theorem omni_cameras_aligned
    lights (world_to_projection world_to_view view_to_world : XMMATRIX)
    i node j rotation :
  let survivors := List.filter (omni_survives world_to_projection) lights in
  let result :=
    ProcessLightsWithShadowMapping_omni_loop
      lights world_to_projection world_to_view view_to_world in
  survivors !! i = Some node →
  rotations !! j = Some rotation →
  fst result !! i = Some (omni_sm_element world_to_view view_to_world node)
  ∧ snd result !! (6 * i + j) = Some (cube_face_camera node rotation).
Proof.
  cbn zeta. intros Hi Hj. split.
  - rewrite ProcessLightsWithShadowMapping_omni_loop_elements.
    change (map ?g ?l) with (g <$> l). by rewrite list_lookup_fmap, Hi.
  - rewrite ProcessLightsWithShadowMapping_omni_loop_cameras.
    by apply cube_faces_lookup.
Qed.

(** X4.  In the spot loop with shadow mapping the packed elements are those
    of the surviving lights in order, and the i-th element carries the
    transposed product of the view-to-world matrix and the
    world-to-projection matrix of the i-th camera. *)
Theorem spot_elements_match_cameras
    lights (world_to_projection world_to_view view_to_world : XMMATRIX) :
  let survivors := List.filter (spot_survives world_to_projection) lights in
  let result :=
    ProcessLightsWithShadowMapping_spot_loop
      lights world_to_projection world_to_view view_to_world in
  fst result = map (spot_sm_element world_to_view view_to_world) survivors
  ∧ map ssm_cview_to_lprojection (fst result)
    = map (λ camera,
             XMMatrixTranspose
               (XMMatrixMultiply view_to_world (world_to_lprojection camera)))
          (snd result).
Proof.
  cbn zeta. rewrite ProcessLightsWithShadowMapping_spot_loop_elements,
    ProcessLightsWithShadowMapping_spot_loop_cameras.
  split; [done|]. by rewrite !map_map.
Qed.

(** ** Whole frames *)

Lemma prologue_spec f w :
  ∃ w4, RenderUpTo Directional f w = (Returned tt, w4)
        ∧ device w4 = device w
        ∧ context w4 = unbound (context w)
        ∧ m_light_buffer (pass w4) = m_light_buffer (pass w)
        ∧ (∀ c, nb_lights c (pass w4) = nb_packed c f)
        ∧ (∀ c, same_sm_lights c (pass w) (pass w4))
        ∧ (∀ c, same_shadow_maps c (pass w) (pass w4)).
Proof.
  destruct (lights_pass_spec Directional f w)
    as (w1 & H1 & Hd1 & Hc1 & Hb1 & Hl1 & _ & Hm1 & Ha1 & Hn1 & _).
  destruct (lights_pass_spec Omni f w1)
    as (w2 & H2 & Hd2 & Hc2 & Hb2 & Hl2 & _ & Hm2 & Ha2 & Hn2 & _).
  destruct (lights_pass_spec Spot f w2)
    as (w3 & H3 & Hd3 & Hc3 & Hb3 & Hl3 & _ & Hm3 & Ha3 & Hn3 & _).
  eexists. split.
  { unfold RenderUpTo.
    rewrite (bind_run _ _ _ _ _ H1), (bind_run _ _ _ _ _ H2),
      (bind_run _ _ _ _ _ H3), (bind_run _ _ _ _ _ (UnbindSMSs_run w3)).
    reflexivity. }
  cbn [device context pass]. unfold unbound.
  at_each_category. unfold same_shadow_maps in *. cbn [shadow_maps] in *.
  split; [congruence|]. split; [congruence|]. split; [congruence|].
  split; [intros []; cbn [nb_lights]; congruence|].
  split; intros []; cbn [same_sm_lights shadow_maps]; congruence.
Qed.

Lemma RenderFrame_after_prologue f w w4 :
  RenderUpTo Directional f w = (Returned tt, w4) →
  RenderFrame f w
  = bind (ProcessLightsWithShadowMapping Directional f) (λ _,
      bind (ProcessLightsWithShadowMapping Omni f) (λ _,
        bind (ProcessLightsWithShadowMapping Spot f) (λ _,
          bind (ProcessLightsData (frame_scene f)) (λ _, BindLBuffer)))) w4.
Proof.
  unfold RenderUpTo, RenderFrame, Render. intros Hup.
  apply bind_Returned in Hup as ([] & w1 & H1 & Hup).
  apply bind_Returned in Hup as ([] & w2 & H2 & Hup).
  apply bind_Returned in Hup as ([] & w3 & H3 & Hup).
  apply bind_Returned in Hup as ([] & w4' & H4 & Hup).
  injection Hup as ->.
  cbn [ProcessLights] in *.
  by rewrite (bind_run _ _ _ _ _ H1), (bind_run _ _ _ _ _ H2),
    (bind_run _ _ _ _ _ H3), (bind_run _ _ _ _ _ H4).
Qed.

(** A frame stops at the first shadow-mapped pass that throws, and goes
    through to the end otherwise. *)
Lemma RenderFrame_cases f w o w' :
  RenderFrame f w = (o, w') →
  ∃ w4,
    RenderUpTo Directional f w = (Returned tt, w4)
    ∧ ((∃ e, o = Thrown e
             ∧ ProcessLightsWithShadowMapping Directional f w4 = (Thrown e, w'))
       ∨ ∃ w5,
           ProcessLightsWithShadowMapping Directional f w4 = (Returned tt, w5)
           ∧ ((∃ e, o = Thrown e
                    ∧ ProcessLightsWithShadowMapping Omni f w5 = (Thrown e, w'))
              ∨ ∃ w6,
                  ProcessLightsWithShadowMapping Omni f w5 = (Returned tt, w6)
                  ∧ ((∃ e, o = Thrown e
                           ∧ ProcessLightsWithShadowMapping Spot f w6 = (Thrown e, w'))
                     ∨ ∃ w7,
                         ProcessLightsWithShadowMapping Spot f w6 = (Returned tt, w7)
                         ∧ o = Returned tt
                         ∧ bind (ProcessLightsData (frame_scene f)) (λ _, BindLBuffer) w7
                           = (Returned tt, w')))).
Proof.
  intros Hrun.
  destruct (prologue_spec f w) as (w4 & Hup & _).
  exists w4. split; [done|].
  rewrite (RenderFrame_after_prologue _ _ _ Hup) in Hrun.
  apply bind_cases in Hrun as [([] & w5 & H5 & Hrun)|(e & H5 & ->)];
    [right; exists w5; split; [done|] | left; by exists e].
  apply bind_cases in Hrun as [([] & w6 & H6 & Hrun)|(e & H6 & ->)];
    [right; exists w6; split; [done|] | left; by exists e].
  apply bind_cases in Hrun as [([] & w7 & H7 & Hrun)|(e & H7 & ->)];
    [right; exists w7; split; [done|] | left; by exists e].
  pose proof (finish_frame _ _ _ _ Hrun) as (-> & _). done.
Qed.

Lemma shadow_pass_enough_all c f w :
  nb_requested c f ≤ nb_available c (pass w) →
  ∃ w', ProcessLightsWithShadowMapping c f w = (Returned tt, w')
        ∧ device w' = device w
        ∧ ∀ c', same_shadow_maps c' (pass w) (pass w').
Proof.
  intros Hle.
  destruct (ProcessLightsWithShadowMapping c f w) as [o w'] eqn:Hrun.
  destruct (shadow_pass_spec _ _ _ _ _ Hrun) as (_ & _ & _ & _ & Hothers & _ & _ & Hcases).
  destruct Hcases as [(_ & -> & Hdev & Hsame & _)|[(Hlt & _)|(Hlt & _)]]; [|lia..].
  exists w'. split; [done|]. split; [done|].
  intros c'. destruct (decide (c' = c)) as [->|Hne]; [done|by apply Hothers].
Qed.

Lemma RenderFrame_steady f w :
  (∀ c, nb_requested c f ≤ nb_available c (pass w)) →
  ∃ w', RenderFrame f w = (Returned tt, w')
        ∧ device w' = device w
        ∧ ∀ c, same_shadow_maps c (pass w) (pass w').
Proof.
  intros Hle.
  destruct (prologue_spec f w) as (w4 & Hup & Hd4 & _ & _ & _ & _ & Hs4).
  rewrite (RenderFrame_after_prologue _ _ _ Hup).
  destruct (shadow_pass_enough_all Directional f w4) as (w5 & H5 & Hd5 & Hs5).
  { rewrite (same_shadow_maps_nb _ _ _ (Hs4 _)). apply Hle. }
  destruct (shadow_pass_enough_all Omni f w5) as (w6 & H6 & Hd6 & Hs6).
  { rewrite (same_shadow_maps_nb _ _ _ (Hs5 _)), (same_shadow_maps_nb _ _ _ (Hs4 _)).
    apply Hle. }
  destruct (shadow_pass_enough_all Spot f w6) as (w7 & H7 & Hd7 & Hs7).
  { rewrite (same_shadow_maps_nb _ _ _ (Hs6 _)), (same_shadow_maps_nb _ _ _ (Hs5 _)),
      (same_shadow_maps_nb _ _ _ (Hs4 _)).
    apply Hle. }
  rewrite (bind_run _ _ _ _ _ H5), (bind_run _ _ _ _ _ H6), (bind_run _ _ _ _ _ H7).
  destruct (bind (ProcessLightsData (frame_scene f)) (λ _, BindLBuffer) w7)
    as [o w'] eqn:Hfinish.
  apply finish_frame in Hfinish as (-> & Hd' & _ & Hs' & _).
  exists w'. split; [done|]. split; [congruence|].
  intros c. unfold same_shadow_maps in *. by rewrite Hs', Hs7, Hs6, Hs5, Hs4.
Qed.

Lemma shadow_pass_events_enough c this f :
  nb_requested c f ≤ nb_available c this →
  shadow_pass_events c this f
  = [EvUpdateStructuredBuffer (sm_lights_srv c this) (nb_requested c f)].
Proof.
  intros Hle. unfold shadow_pass_events.
  by destruct (Nat.ltb_spec (nb_available c this) (nb_requested c f)); [lia|].
Qed.

Lemma RenderFrame_no_construction f w o w' :
  (∀ c, nb_requested c f ≤ nb_available c (pass w)) →
  RenderFrame f w = (o, w') →
  (∀ c, same_shadow_maps c (pass w) (pass w'))
  ∧ ∃ events, trace w' = trace w ++ events
              ∧ ∀ constructed, EvMakeUnique constructed ∉ events.
Proof.
  intros Hle Hrun.
  destruct (RenderFrame_steady f w Hle) as (w'' & Hrun' & _ & Hsame).
  rewrite Hrun in Hrun'. injection Hrun' as -> <-.
  split; [done|].
  apply RenderFrame_Returned in Hrun as (w7 & Hfinish & _ & _ & _ & _ & _ & _ & Htr).
  apply finish_frame in Hfinish as (_ & _ & _ & _ & _ & Htr').
  rewrite Htr', Htr, !shadow_pass_events_enough by done.
  rewrite <- !app_assoc. eexists. split; [reflexivity|].
  intros constructed Hin. cbn [app] in Hin.
  repeat (apply elem_of_cons in Hin as [Hin|Hin]; [discriminate|]).
  by apply elem_of_nil in Hin.
Qed.

(** X5.  In a frame whose three requests are within the capacities,
    [Render] attempts no construction of a shadow-map buffer, whether it
    returns or throws: [MakeUnique] is not called, and the three shadow-map
    buffers are the ones held before. *)
Theorem frame_within_capacity f w o w' :
  (∀ c, nb_requested c f ≤ nb_available c (pass w)) →
  RenderFrame f w = (o, w') →
  (∀ c, same_shadow_maps c (pass w) (pass w'))
  ∧ ∃ events, trace w' = trace w ++ events
              ∧ ∀ constructed, EvMakeUnique constructed ∉ events.
Proof. apply RenderFrame_no_construction. Qed.

Lemma shadow_pass_Thrown c f w e w' :
  ProcessLightsWithShadowMapping c f w = (Thrown e, w') →
  e = ResourceCreationFailed
  ∧ context w' = context w
  ∧ m_light_buffer (pass w') = m_light_buffer (pass w)
  ∧ (∀ c', same_lights c' (pass w) (pass w'))
  ∧ ∃ tr, trace w' = push_back tr (EvMakeUnique false).
Proof.
  intros Hrun.
  destruct (shadow_pass_spec _ _ _ _ _ Hrun) as (Hctx & Hlb & Hl & _ & _ & _ & _ & Hcases).
  destruct e.
  destruct Hcases as [(_ & [=] & _)|[(_ & _ & _ & _ & Htr)|(_ & _ & [=] & _)]].
  repeat split; try done. by eexists.
Qed.

Lemma RenderFrame_Thrown f w e w' :
  RenderFrame f w = (Thrown e, w') →
  e = ResourceCreationFailed
  ∧ context w' = unbound (context w)
  ∧ m_light_buffer (pass w') = m_light_buffer (pass w)
  ∧ (∀ c, nb_lights c (pass w') = nb_packed c f)
  ∧ ∃ tr, trace w' = push_back tr (EvMakeUnique false).
Proof.
  intros Hrun. destruct e.
  destruct (prologue_spec f w) as (w4' & Hup' & _ & Hc4 & Hb4 & Hn4 & _).
  destruct (RenderFrame_cases _ _ _ _ Hrun) as (w4 & Hup & Hcases).
  rewrite Hup' in Hup. injection Hup as ->.
  destruct Hcases as [([] & _ & Hthrow)|(w5 & H5 & Hcases)].
  { apply shadow_pass_Thrown in Hthrow as (_ & Hc & Hb & Hl & Htr).
    split; [done|]. split; [congruence|]. split; [congruence|]. split; [|done].
    intros c. by rewrite (same_lights_nb _ _ _ (Hl c)). }
  apply shadow_pass_Returned in H5 as (Hc5 & Hb5 & Hl5 & _).
  destruct Hcases as [([] & _ & Hthrow)|(w6 & H6 & Hcases)].
  { apply shadow_pass_Thrown in Hthrow as (_ & Hc & Hb & Hl & Htr).
    split; [done|]. split; [congruence|]. split; [congruence|]. split; [|done].
    intros c. by rewrite (same_lights_nb _ _ _ (Hl c)), (same_lights_nb _ _ _ (Hl5 c)). }
  apply shadow_pass_Returned in H6 as (Hc6 & Hb6 & Hl6 & _).
  destruct Hcases as [([] & _ & Hthrow)|(w7 & _ & [=] & _)].
  apply shadow_pass_Thrown in Hthrow as (_ & Hc & Hb & Hl & Htr).
  split; [done|]. split; [congruence|]. split; [congruence|]. split; [|done].
  intros c. by rewrite (same_lights_nb _ _ _ (Hl c)), (same_lights_nb _ _ _ (Hl6 c)),
    (same_lights_nb _ _ _ (Hl5 c)).
Qed.

Lemma RenderFrame_Returned_capacity f w w' :
  RenderFrame f w = (Returned tt, w') →
  ∀ c, nb_available c (pass w')
       = Nat.max (nb_available c (pass w)) (nb_requested c f).
Proof.
  intros Hrun.
  destruct (prologue_spec f w) as (w4' & Hup' & _ & _ & _ & _ & _ & Hs4).
  destruct (RenderFrame_cases _ _ _ _ Hrun) as (w4 & Hup & Hcases).
  rewrite Hup' in Hup. injection Hup as ->.
  destruct Hcases as [(e & [=] & _)|(w5 & H5 & Hcases)].
  destruct Hcases as [(e & [=] & _)|(w6 & H6 & Hcases)].
  destruct Hcases as [(e & [=] & _)|(w7 & H7 & _ & Hfinish)].
  apply finish_frame in Hfinish as (_ & _ & _ & Hs' & _).
  pose proof (shadow_pass_capacity _ _ _ _ H5) as Hcap5.
  pose proof (shadow_pass_capacity _ _ _ _ H6) as Hcap6.
  pose proof (shadow_pass_capacity _ _ _ _ H7) as Hcap7.
  apply shadow_pass_Returned in H5 as (_ & _ & _ & _ & Ho5 & _).
  apply shadow_pass_Returned in H6 as (_ & _ & _ & _ & Ho6 & _).
  apply shadow_pass_Returned in H7 as (_ & _ & _ & _ & Ho7 & _).
  intros c. rewrite (same_shadow_maps_nb _ _ _ (Hs' c)).
  rewrite <- (same_shadow_maps_nb _ _ _ (Hs4 c)).
  destruct c.
  - rewrite (same_shadow_maps_nb _ _ _ (Ho7 Directional ltac:(done))),
      (same_shadow_maps_nb _ _ _ (Ho6 Directional ltac:(done))).
    exact Hcap5.
  - rewrite (same_shadow_maps_nb _ _ _ (Ho7 Omni ltac:(done))), Hcap6,
      (same_shadow_maps_nb _ _ _ (Ho5 Omni ltac:(done))).
    done.
  - rewrite Hcap7, (same_shadow_maps_nb _ _ _ (Ho6 Spot ltac:(done))),
      (same_shadow_maps_nb _ _ _ (Ho5 Spot ltac:(done))).
    done.
Qed.

(** X7.  Across one call of [Render] no capacity decreases, whether the
    call returns or throws; and when it returns, the capacity of every
    category is the larger of the capacity before and of the request of
    the frame, so that it covers the request. *)
Theorem frame_capacity f w o w' :
  RenderFrame f w = (o, w') →
  (∀ c, nb_available c (pass w) ≤ nb_available c (pass w'))
  ∧ (o = Returned tt →
     ∀ c, nb_available c (pass w')
          = Nat.max (nb_available c (pass w)) (nb_requested c f)
          ∧ nb_requested c f ≤ nb_available c (pass w')).
Proof.
  intros Hrun. split.
  - intros c. destruct (RenderFrame_grows _ _ _ _ Hrun c) as [Hsame|[Hlt _]]; [|lia].
    by rewrite (same_shadow_maps_nb _ _ _ Hsame).
  - intros -> c. rewrite (RenderFrame_Returned_capacity _ _ _ Hrun c). lia.
Qed.

(** ** The depth-stencil views of the shadow maps *)

Lemma ClearDSVs_map (dsvs : list handle) :
  fold_left (λ cmds dsv, push_back cmds (OM_ClearDepthOfDSV dsv)) dsvs []
  = map OM_ClearDepthOfDSV dsvs.
Proof.
  enough (Hinv : ∀ l a, fold_left (λ cmds dsv, push_back cmds (OM_ClearDepthOfDSV dsv)) l a
                        = a ++ map OM_ClearDepthOfDSV l)
    by (rewrite Hinv; done).
  induction l as [|dsv l IHl]; intros a; cbn [fold_left map].
  - by rewrite app_nil_r.
  - rewrite IHl. unfold push_back. by rewrite <- app_assoc.
Qed.

Lemma slices_cover_capacity c this :
  slices_per_map c * nb_available c this ≤ nb_slices c this.
Proof.
  destruct c; cbn [slices_per_map nb_available nb_slices]; try lia.
  unfold ShadowCubeMapBuffer_GetNumberOfShadowCubeMaps,
    ShadowCubeMapBuffer_GetNumberOfShadowMaps.
  by apply Nat.Div0.mul_div_le.
Qed.

Lemma views_in_range c this i :
  i < nb_slices c this →
  ∃ dsv, GetDSV c this i = Some dsv
         ∧ BindDSV c this i = Some (OM_BindRTVAndDSV None dsv)
         ∧ ClearDSVs c this !! i = Some (OM_ClearDepthOfDSV dsv).
Proof.
  destruct c; cbn [nb_slices GetDSV BindDSV ClearDSVs];
    unfold ShadowMapBuffer_GetNumberOfShadowMaps,
      ShadowCubeMapBuffer_GetNumberOfShadowMaps,
      ShadowMapBuffer_GetDSV, ShadowCubeMapBuffer_GetDSV,
      ShadowMapBuffer_BindDSV, ShadowCubeMapBuffer_BindDSV,
      ShadowMapBuffer_ClearDSVs, ShadowCubeMapBuffer_ClearDSVs;
    intros Hi; apply lookup_lt_is_Some in Hi as [dsv Hdsv];
    exists dsv; rewrite ClearDSVs_map, Hdsv;
    (split; [done|]); (split; [done|]);
    change (map ?g ?l) with (g <$> l); by rewrite list_lookup_fmap, Hdsv.
Qed.

(** X8.  When [Render] returns, every shadow-mapped light packed in the
    frame has its depth-stencil views: each index below the request of the
    category, times six for the omni lights, is in the range of [GetDSV] and
    of [BindDSV], which binds that view with no render target, and
    [ClearDSVs] clears that view at that position. *)
Theorem packed_lights_have_views f w w' c i :
  RenderFrame f w = (Returned tt, w') →
  i < slices_per_map c * nb_requested c f →
  ∃ dsv, GetDSV c (pass w') i = Some dsv
         ∧ BindDSV c (pass w') i = Some (OM_BindRTVAndDSV None dsv)
         ∧ ClearDSVs c (pass w') !! i = Some (OM_ClearDepthOfDSV dsv).
Proof.
  intros Hrun Hi. apply views_in_range.
  pose proof (RenderFrame_Returned_capacity _ _ _ Hrun c) as Hcap.
  pose proof (slices_cover_capacity c (pass w')) as Hcover.
  assert (nb_requested c f ≤ nb_available c (pass w')) as Hle by lia.
  eapply Nat.lt_le_trans; [exact Hi|].
  etrans; [|exact Hcover]. by apply Nat.mul_le_mono_l.
Qed.

(** X9.  [ClearDSVs] clears every view of the buffer, once each and in
    order: as many as the buffer has slices, which is at least the
    capacity of the category, times six for the cube maps, however few
    lights the frame has packed. *)
Theorem ClearDSVs_clears_every_slice c this :
  length (ClearDSVs c this) = nb_slices c this
  ∧ slices_per_map c * nb_available c this ≤ length (ClearDSVs c this)
  ∧ ∀ i, ClearDSVs c this !! i = OM_ClearDepthOfDSV <$> GetDSV c this i.
Proof.
  assert (Hlen : length (ClearDSVs c this) = nb_slices c this).
  { destruct c; cbn [ClearDSVs nb_slices];
      unfold ShadowMapBuffer_ClearDSVs, ShadowCubeMapBuffer_ClearDSVs,
        ShadowMapBuffer_GetNumberOfShadowMaps, ShadowCubeMapBuffer_GetNumberOfShadowMaps;
      by rewrite ClearDSVs_map, length_map. }
  split; [done|]. split; [rewrite Hlen; apply slices_cover_capacity|].
  intros i. destruct c; cbn [ClearDSVs GetDSV];
    unfold ShadowMapBuffer_ClearDSVs, ShadowCubeMapBuffer_ClearDSVs,
      ShadowMapBuffer_GetDSV, ShadowCubeMapBuffer_GetDSV;
    rewrite ClearDSVs_map; change (map ?g ?l) with (g <$> l);
    by rewrite list_lookup_fmap.
Qed.

(** ** The aggregate light buffer and the bindings *)

Lemma RenderFrame_Returned_light_buffer f w w' :
  RenderFrame f w = (Returned tt, w') →
  m_light_buffer (pass w')
  = ConstantBuffer_UpdateData (frame_light_buffer f) (m_light_buffer (pass w)).
Proof.
  intros Hrun.
  apply RenderFrame_Returned in Hrun as (w7 & Hfinish & _ & Hlb & Hnb & Hsm & _).
  injection Hfinish as <-. cbn [pass m_light_buffer set_m_light_buffer].
  unfold frame_light_buffer. rewrite Hlb.
  pose proof (Hnb Directional) as Hd. pose proof (Hnb Omni) as Ho.
  pose proof (Hnb Spot) as Hs. pose proof (Hsm Directional) as Hsd.
  pose proof (Hsm Omni) as Hso. pose proof (Hsm Spot) as Hss.
  cbn [nb_lights nb_sm_lights] in *.
  unfold GetNumberOfDirectionalLightsWithShadowMapping,
    GetNumberOfOmniLightsWithShadowMapping,
    GetNumberOfSpotLightsWithShadowMapping in *.
  by rewrite Hd, Ho, Hs, Hsd, Hso, Hss.
Qed.

(** X10.  When [Render] returns, the aggregate light buffer is the buffer
    object held before, and the frame has made three accesses to it, in
    this order: the lock, the release of the lock, and the copy.  What is
    copied are the data of this frame alone: the ambient light and the fog
    of the scene, the inverse of the fog range, and the six lengths,
    whatever the frames before. *)
Theorem light_buffer_of_frame f w w' :
  RenderFrame f w = (Returned tt, w') →
  cb_buffer (m_light_buffer (pass w')) = cb_buffer (m_light_buffer (pass w))
  ∧ cb_accesses (m_light_buffer (pass w'))
    = cb_accesses (m_light_buffer (pass w))
      ++ [Locked D3D11_MAP_WRITE_DISCARD; Unlocked; Copied (frame_light_buffer f)]
  ∧ ∀ v v', RenderFrame f v = (Returned tt, v') →
            last (ConstantBuffer_copies (m_light_buffer (pass v')))
            = last (ConstantBuffer_copies (m_light_buffer (pass w'))).
Proof.
  intros Hrun. rewrite (RenderFrame_Returned_light_buffer _ _ _ Hrun).
  split; [done|]. split.
  - unfold ConstantBuffer_UpdateData, memcpy, BufferLock_dtor, BufferLock_ctor.
    cbn [cb_accesses]. by rewrite <- !app_assoc.
  - intros v v' Hv. rewrite (RenderFrame_Returned_light_buffer _ _ _ Hv).
    by rewrite !ConstantBuffer_UpdateData_copies, !last_snoc.
Qed.

Lemma bind_views_outside srvs start (slots : gmap nat handle) slot :
  ¬ in_slots start (length srvs) slot →
  bind_views start srvs slots !! slot = slots !! slot.
Proof.
  unfold in_slots. revert start slots.
  induction srvs as [|srv srvs IH]; intros start slots Hout; [done|].
  cbn [bind_views length] in *. rewrite IH by lia.
  destruct srv; [apply lookup_insert_ne | apply lookup_delete_ne]; lia.
Qed.

Lemma BindSRVs_outside stage' stage start srvs ctx slot :
  ¬ in_slots start (length srvs) slot →
  bound_srv stage' (BindSRVs stage start srvs ctx) slot = bound_srv stage' ctx slot.
Proof.
  intros Hout. destruct stage, stage'; cbn; try done; by apply bind_views_outside.
Qed.

Lemma BindSRVs_cbuffer stage' stage start srvs ctx slot :
  bound_cbuffer stage' (BindSRVs stage start srvs ctx) slot = bound_cbuffer stage' ctx slot.
Proof. by destruct stage, stage'. Qed.

Lemma BindConstantBuffer_srv stage' stage slot0 buffer ctx slot :
  bound_srv stage' (BindConstantBuffer stage slot0 buffer ctx) slot
  = bound_srv stage' ctx slot.
Proof. by destruct stage, stage'. Qed.

Lemma BindConstantBuffer_other stage' stage slot0 buffer ctx slot :
  slot ≠ slot0 →
  bound_cbuffer stage' (BindConstantBuffer stage slot0 buffer ctx) slot
  = bound_cbuffer stage' ctx slot.
Proof.
  intros Hne. destruct stage, stage'; cbn; try done; by apply lookup_insert_ne.
Qed.

(** X6.  When [Render] throws, [ProcessLightsData] and [BindLBuffer] have
    not run: no data have been copied to the aggregate light buffer, every
    constant-buffer slot of both stages holds what it held, and every view
    slot of both stages holds what it held or is one of the three
    shadow-map slots, now empty. *)
Theorem frame_that_throws f w e w' :
  RenderFrame f w = (Thrown e, w') →
  ConstantBuffer_copies (m_light_buffer (pass w'))
  = ConstantBuffer_copies (m_light_buffer (pass w))
  ∧ ∀ stage slot,
      bound_cbuffer stage (context w') slot = bound_cbuffer stage (context w) slot
      ∧ (bound_srv stage (context w') slot = bound_srv stage (context w) slot
         ∨ (in_slots SLOT_SRV_SHADOW_MAPS_START 3 slot
            ∧ bound_srv stage (context w') slot = None)).
Proof.
  intros Hrun.
  apply RenderFrame_Thrown in Hrun as (_ & Hctx & Hlb & _).
  split; [by rewrite Hlb|].
  intros stage slot. rewrite Hctx. unfold unbound. split.
  - by rewrite !BindSRVs_cbuffer.
  - destruct (decide (SLOT_SRV_SHADOW_MAPS_START ≤ slot
                      < SLOT_SRV_SHADOW_MAPS_START + 3)) as [Hin|Hout].
    + right. split; [done|].
      remember (slot - SLOT_SRV_SHADOW_MAPS_START) as i eqn:Hi.
      assert (Hslot : slot = SLOT_SRV_SHADOW_MAPS_START + i) by lia.
      rewrite Hslot.
      apply (proj1 (bound_to_both_stages _ _ 0 [] _)).
      destruct i as [|[|[|i]]]; [done..|lia].
    + left. by rewrite !BindSRVs_outside.
Qed.

(** X11.  Whether it returns or throws, [Render] leaves every view slot of
    both stages outside the three shadow-map slots and the nine light slots
    as it was, and every constant-buffer slot other than the lighting slot
    as it was. *)
Theorem frame_binds_only_its_slots f w o w' stage slot :
  RenderFrame f w = (o, w') →
  (¬ in_slots SLOT_SRV_SHADOW_MAPS_START 3 slot →
   ¬ in_slots SLOT_SRV_LIGHTS_START 9 slot →
   bound_srv stage (context w') slot = bound_srv stage (context w) slot)
  ∧ (slot ≠ SLOT_CBUFFER_LIGHTING →
     bound_cbuffer stage (context w') slot = bound_cbuffer stage (context w) slot).
Proof.
  intros Hrun.
  assert (Hunbound :
    (¬ in_slots SLOT_SRV_SHADOW_MAPS_START 3 slot →
     bound_srv stage (unbound (context w)) slot = bound_srv stage (context w) slot)
    ∧ bound_cbuffer stage (unbound (context w)) slot
      = bound_cbuffer stage (context w) slot).
  { unfold unbound. split.
    - intros Hout. by rewrite !BindSRVs_outside.
    - by rewrite !BindSRVs_cbuffer. }
  destruct Hunbound as [Hsrv Hcb].
  destruct o as [[]|e].
  - apply RenderFrame_Returned in Hrun as (w7 & Hfinish & Hctx & _).
    apply finish_frame in Hfinish as (_ & _ & _ & _ & -> & _). rewrite Hctx. split.
    + intros Hsm Hl. rewrite !BindSRVs_outside, !BindConstantBuffer_srv by done.
      by apply Hsrv.
    + intros Hne. by rewrite !BindSRVs_cbuffer, !BindConstantBuffer_other.
  - apply RenderFrame_Thrown in Hrun as (_ & -> & _). split; [|done].
    intros Hsm _. by apply Hsrv.
Qed.

Lemma RenderFrame_light_buffer_handle f w o w' :
  RenderFrame f w = (o, w') →
  cb_buffer (m_light_buffer (pass w')) = cb_buffer (m_light_buffer (pass w)).
Proof.
  intros Hrun. destruct o as [[]|e].
  - by rewrite (RenderFrame_Returned_light_buffer _ _ _ Hrun).
  - apply RenderFrame_Thrown in Hrun as (_ & _ & -> & _). done.
Qed.

(** X12.  The pass never replaces its constant buffer: in every world the
    constructed pass can be in, the aggregate light buffer is the buffer
    object of the construction, so a binding of it stays valid. *)
Theorem light_buffer_never_replaced this w :
  reachable this w →
  ConstantBuffer_Get (m_light_buffer (pass w)) = ConstantBuffer_Get (m_light_buffer this).
Proof.
  unfold ConstantBuffer_Get.
  induction 1 as [d ctx tr|w f o w' _ IH Hrun|w d ctx _ IH]; [done| |done].
  by rewrite (RenderFrame_light_buffer_handle _ _ _ _ Hrun).
Qed.

Lemma rebinding_idempotent srvs cb ctx stage slot :
  let bind ctx :=
    BindSRVs CS SLOT_SRV_LIGHTS_START srvs
      (BindSRVs PS SLOT_SRV_LIGHTS_START srvs
         (BindConstantBuffer CS SLOT_CBUFFER_LIGHTING cb
            (BindConstantBuffer PS SLOT_CBUFFER_LIGHTING cb (unbound ctx)))) in
  bound_srv stage (bind (bind ctx)) slot = bound_srv stage (bind ctx) slot
  ∧ bound_cbuffer stage (bind (bind ctx)) slot = bound_cbuffer stage (bind ctx) slot.
Proof.
  cbn zeta. split.
  - destruct (decide (SLOT_SRV_LIGHTS_START ≤ slot
                      < SLOT_SRV_LIGHTS_START + length srvs)) as [Hin|Hout].
    + assert (is_Some (srvs !! (slot - SLOT_SRV_LIGHTS_START))) as [view Hview]
        by (apply lookup_lt_is_Some; lia).
      replace slot with (SLOT_SRV_LIGHTS_START + (slot - SLOT_SRV_LIGHTS_START)) by lia.
      rewrite !(proj1 (bound_to_both_stages _ _ 0 [] _) _ _ _ Hview). done.
    + rewrite !BindSRVs_outside, !BindConstantBuffer_srv by done.
      unfold unbound.
      destruct (decide (SLOT_SRV_SHADOW_MAPS_START ≤ slot
                        < SLOT_SRV_SHADOW_MAPS_START + 3)) as [Hsm|Hnsm].
      * assert (is_Some ([None; None; None] !! (slot - SLOT_SRV_SHADOW_MAPS_START)
                         : option (option handle))) as [view Hview]
          by (apply lookup_lt_is_Some; cbn; lia).
        replace slot
          with (SLOT_SRV_SHADOW_MAPS_START + (slot - SLOT_SRV_SHADOW_MAPS_START)) by lia.
        rewrite !(proj1 (bound_to_both_stages _ _ 0 [] _) _ _ _ Hview). done.
      * rewrite !BindSRVs_outside, !BindConstantBuffer_srv by done.
        by rewrite !BindSRVs_outside by done.
  - rewrite !BindSRVs_cbuffer.
    destruct (decide (slot = SLOT_CBUFFER_LIGHTING)) as [->|Hne].
    + destruct stage; cbn; by rewrite ?lookup_insert_eq.
    + rewrite !BindConstantBuffer_other by done.
      unfold unbound. rewrite !BindSRVs_cbuffer.
      by rewrite !BindConstantBuffer_other by done.
Qed.

Lemma finish_frame_srvs scene w o w' :
  bind (ProcessLightsData scene) (λ _, BindLBuffer) w = (o, w') →
  (∀ c, lights_srv c (pass w') = lights_srv c (pass w))
  ∧ (∀ c, sm_lights_srv c (pass w') = sm_lights_srv c (pass w)).
Proof. intros [= <- <-]. split; by intros []. Qed.

Lemma lbuffer_srvs_eq p p' :
  (∀ c, lights_srv c p' = lights_srv c p) →
  (∀ c, sm_lights_srv c p' = sm_lights_srv c p) →
  (∀ c, same_shadow_maps c p p') →
  lbuffer_srvs p' = lbuffer_srvs p.
Proof.
  intros Hl Hsm Hmaps. unfold lbuffer_srvs.
  pose proof (Hl Directional). pose proof (Hl Omni). pose proof (Hl Spot).
  pose proof (Hsm Directional). pose proof (Hsm Omni). pose proof (Hsm Spot).
  pose proof (Hmaps Directional) as Hd. pose proof (Hmaps Omni) as Ho.
  pose proof (Hmaps Spot) as Hs.
  unfold same_shadow_maps in *. cbn [lights_srv sm_lights_srv shadow_maps] in *.
  injection Hd as ->. injection Ho as ->. injection Hs as ->.
  congruence.
Qed.

(** X13.  Rendering the same frame once more, after a call of [Render]
    that has returned: no construction of a shadow-map buffer is attempted
    and the three shadow-map buffers are kept, whether the second call
    returns or throws; and when it returns, the data it copies to the
    aggregate light buffer are those the first call has copied, and every
    view slot and every constant-buffer slot of both stages holds what it
    held. *)
Theorem same_frame_again f w w1 o w2 :
  RenderFrame f w = (Returned tt, w1) →
  RenderFrame f w1 = (o, w2) →
  (∀ c, same_shadow_maps c (pass w1) (pass w2))
  ∧ (∃ events, trace w2 = trace w1 ++ events
               ∧ ∀ constructed, EvMakeUnique constructed ∉ events)
  ∧ (o = Returned tt →
     last (ConstantBuffer_copies (m_light_buffer (pass w2)))
     = last (ConstantBuffer_copies (m_light_buffer (pass w1)))
     ∧ ∀ stage slot,
         bound_srv stage (context w2) slot = bound_srv stage (context w1) slot
         ∧ bound_cbuffer stage (context w2) slot
           = bound_cbuffer stage (context w1) slot).
Proof.
  intros Hrun1 Hrun2.
  assert (Hle : ∀ c, nb_requested c f ≤ nb_available c (pass w1)).
  { intros c. rewrite (RenderFrame_Returned_capacity _ _ _ Hrun1 c). lia. }
  destruct (RenderFrame_no_construction _ _ _ _ Hle Hrun2) as [Hsame Hevents].
  split; [done|]. split; [done|]. intros ->.
  pose proof (RenderFrame_Returned_light_buffer _ _ _ Hrun1) as Hlb1.
  pose proof (RenderFrame_Returned_light_buffer _ _ _ Hrun2) as Hlb2.
  split.
  { by rewrite Hlb2, Hlb1, !ConstantBuffer_UpdateData_copies, !last_snoc. }
  assert (Hcb : ConstantBuffer_Get (m_light_buffer (pass w2))
                = ConstantBuffer_Get (m_light_buffer (pass w1))) by (by rewrite Hlb2).
  apply RenderFrame_Returned in Hrun1 as (v7 & Hfinish1 & Hctx1 & _).
  apply RenderFrame_Returned in Hrun2
    as (w7 & Hfinish2 & Hctx2 & _ & _ & _ & Hl7 & Hsm7 & _).
  destruct (finish_frame_srvs _ _ _ _ Hfinish2) as [Hl2 Hsm2].
  apply finish_frame in Hfinish1 as (_ & _ & _ & _ & Hc1 & _).
  apply finish_frame in Hfinish2 as (_ & _ & _ & _ & Hc2 & _).
  assert (Hsrvs : lbuffer_srvs (pass w2) = lbuffer_srvs (pass w1)).
  { apply lbuffer_srvs_eq; [| |done].
    - intros c. by rewrite Hl2, Hl7.
    - intros c. by rewrite Hsm2, Hsm7. }
  intros stage slot.
  rewrite Hc2, Hctx2, Hsrvs, Hcb, Hc1, Hctx1.
  apply (rebinding_idempotent (lbuffer_srvs (pass w1))
           (ConstantBuffer_Get (m_light_buffer (pass w1))) (context w)).
Qed.

(** X14.  The loops with shadow mapping cull the same lights and compute
    the same light data as the loops without: for one list of lights, the
    light parts of the elements of the shadow-mapped loop are the elements
    of the plain loop, in each of the three categories. *)
Theorem shadow_elements_extend_plain_elements
    (world_to_projection world_to_view view_to_world : XMMATRIX) :
  (∀ lights,
     map dsm_light
       (fst (ProcessLightsWithShadowMapping_directional_loop
               lights world_to_view view_to_world))
     = ProcessLights_directional_loop lights world_to_view)
  ∧ (∀ lights,
       map osm_light
         (fst (ProcessLightsWithShadowMapping_omni_loop
                 lights world_to_projection world_to_view view_to_world))
       = ProcessLights_omni_loop lights world_to_projection world_to_view)
  ∧ (∀ lights,
       map ssm_light
         (fst (ProcessLightsWithShadowMapping_spot_loop
                 lights world_to_projection world_to_view view_to_world))
       = ProcessLights_spot_loop lights world_to_projection world_to_view).
Proof.
  split; [|split]; intros lights.
  - rewrite ProcessLightsWithShadowMapping_directional_loop_map,
      ProcessLights_directional_loop_map.
    cbn [fst]. by rewrite map_map.
  - unfold ProcessLightsWithShadowMapping_omni_loop, ProcessLights_omni_loop.
    enough (Hsim : ∀ l a b, map osm_light (fst b) = a →
                            map osm_light (fst (fold_left _ l b)) = fold_left _ l a)
      by (by apply Hsim).
    clear. induction l as [|node l IHl]; intros a [buffer cameras] Hab;
      cbn [fold_left fst] in *; [done|].
    apply IHl. destruct (Cull_BS _ _); cbn [fst]; [done|].
    unfold push_back. by rewrite map_app, Hab.
  - unfold ProcessLightsWithShadowMapping_spot_loop, ProcessLights_spot_loop.
    enough (Hsim : ∀ l a b, map ssm_light (fst b) = a →
                            map ssm_light (fst (fold_left _ l b)) = fold_left _ l a)
      by (by apply Hsim).
    clear. induction l as [|node l IHl]; intros a [buffer cameras] Hab;
      cbn [fold_left fst] in *; [done|].
    apply IHl. destruct (Cull_AABB _ _); cbn [fst]; [done|].
    unfold push_back. by rewrite map_app, Hab.
Qed.

End Properties.

(** * The properties at work *)

#[local] Existing Instance Symbolic.math.
#[local] Existing Instance Symbolic.frustum.
#[local] Existing Instance Symbolic.slots.

Example LBufferPass_ctor_device0 :
  LBufferPass_ctor Symbolic.device0 = (Returned Symbolic.pass0, Symbolic.device1).
Proof. reflexivity. Qed.

Example LBufferPass_ctor_exhausted_device0 :
  LBufferPass_ctor Symbolic.exhausted_device0
  = (Returned Symbolic.pass0, Symbolic.exhausted_device1).
Proof. reflexivity. Qed.

Example busy_frame_requests :
  map (λ c, (nb_packed c Symbolic.busy_frame, nb_requested c Symbolic.busy_frame))
      [Directional; Omni; Spot]
  = [(1, 3); (1, 2); (1, 2)].
Proof. reflexivity. Qed.

Example busy_frame_omni_cameras :
  cameras_of Omni Symbolic.busy_frame
  = flat_map (λ node, map (cube_face_camera node) rotations)
      [Symbolic.lamp 8 false; Symbolic.lamp 10 false]
  ∧ length (cameras_of Omni Symbolic.busy_frame) = 12.
Proof. split; reflexivity. Qed.

Example busy_frame_spot_cameras :
  cameras_of Spot Symbolic.busy_frame
  = [ {| world_to_lprojection := Symbolic.Mul (Symbolic.Mat 112) (Symbolic.Mat 212);
         world_to_lview := Symbolic.Mat 112;
         lview_to_lprojection := Symbolic.Mat 212 |};
      {| world_to_lprojection := Symbolic.Mul (Symbolic.Mat 113) (Symbolic.Mat 213);
         world_to_lview := Symbolic.Mat 113;
         lview_to_lprojection := Symbolic.Mat 213 |} ].
Proof. reflexivity. Qed.

(** C1, as stated, fails on a newly constructed pass: after a first frame
    without any shadow-mapped directional light the request is 0 and the
    capacity is the 1 of the construction. *)
Lemma capacity_above_every_request :
  LBufferPass_ctor Symbolic.device0
  = (Returned (pass Symbolic.world0), device Symbolic.world0)
  ∧ fst (ProcessFrames Directional [Symbolic.dark_frame] Symbolic.world0) = Returned tt
  ∧ list_max (map (nb_requested Directional) [Symbolic.dark_frame]) = 0
  ∧ nb_available Directional
      (pass (snd (ProcessFrames Directional [Symbolic.dark_frame] Symbolic.world0)))
    ≠ list_max (map (nb_requested Directional) [Symbolic.dark_frame]).
Proof. repeat split; try reflexivity. vm_compute. discriminate. Qed.

Lemma grow_only_capacity_witness :
  nb_available Omni
    (pass (snd (ProcessFrames Omni [Symbolic.busy_frame; Symbolic.dark_frame]
                  Symbolic.world0)))
  = Nat.max (nb_available Omni (pass Symbolic.world0))
            (list_max (map (nb_requested Omni)
                         [Symbolic.busy_frame; Symbolic.dark_frame])).
Proof.
  refine (proj1 (grow_only_capacity Omni
                   [Symbolic.busy_frame; Symbolic.dark_frame] Symbolic.world0 _ _)).
  vm_compute. reflexivity.
Defined.

(** C3, as stated, fails: for one shadow-mapped directional light the loop
    computes no camera. *)
Lemma directional_light_without_camera :
  ¬ 1 ≤ length (snd (ProcessLightsWithShadowMapping_directional_loop
                       [Symbolic.sun 5] (Symbolic.Mat 1001) (Symbolic.Mat 1002))).
Proof. vm_compute. lia. Qed.

Lemma count_fields_after_frame_witness :
  length (GetOmniLights (frame_scene Symbolic.busy_frame)) = 2
  ∧ nb_packed Omni Symbolic.busy_frame = 1
  ∧ ∃ data,
      ConstantBuffer_copies
        (m_light_buffer (pass (snd (RenderFrame Symbolic.busy_frame Symbolic.world0))))
      = ConstantBuffer_copies (m_light_buffer (pass Symbolic.world0)) ++ [data]
      ∧ count_field Omni data = 1%Z
      ∧ sm_count_field Omni data = 2%Z.
Proof.
  split; [reflexivity|]. split; [reflexivity|].
  destruct (count_fields_after_frame Symbolic.busy_frame Symbolic.world0
              (snd (RenderFrame Symbolic.busy_frame Symbolic.world0)))
    as [(data & Hdata & _ & Hcount & Hsmcount) _].
  { vm_compute. reflexivity. }
  exists data. split; [exact Hdata|]. split.
  - apply (Hcount Omni). vm_compute. reflexivity.
  - apply (Hsmcount Omni). vm_compute. reflexivity.
Defined.

Lemma failed_construction_keeps_shadow_maps_witness :
  fst (RenderFrame Symbolic.busy_frame Symbolic.exhausted_world0)
  = Thrown ResourceCreationFailed
  ∧ ∀ c, same_shadow_maps c Symbolic.pass0
           (pass (snd (RenderFrame Symbolic.busy_frame Symbolic.exhausted_world0))).
Proof.
  pose (w := snd (RenderUpTo Directional Symbolic.busy_frame Symbolic.exhausted_world0)).
  pose (w' := snd (ProcessLightsWithShadowMapping Directional Symbolic.busy_frame w)).
  destruct (failed_construction_keeps_shadow_maps Directional Symbolic.busy_frame w
              (Thrown ResourceCreationFailed) w')
    as [_ Hthrown].
  { vm_compute. reflexivity. }
  destruct (Hthrown ResourceCreationFailed eq_refl) as [Hsame Hrender].
  rewrite (Hrender Symbolic.exhausted_world0) by (vm_compute; reflexivity).
  split; [reflexivity|]. exact Hsame.
Defined.


Lemma capacity_never_zero_witness :
  1 ≤ nb_available Omni (pass (snd (RenderFrame Symbolic.busy_frame Symbolic.world0)))
  ∧ nb_slices Omni (pass (snd (RenderFrame Symbolic.busy_frame Symbolic.world0)))
    = 6 * nb_available Omni
            (pass (snd (RenderFrame Symbolic.busy_frame Symbolic.world0))).
Proof.
  destruct (capacity_never_zero Symbolic.device0 Symbolic.pass0 Symbolic.device1
              (snd (RenderFrame Symbolic.busy_frame Symbolic.world0)) Omni)
    as (_ & _ & Hle & _ & Hslices).
  - reflexivity.
  - apply (reachable_Render _ Symbolic.world0 Symbolic.busy_frame
             (fst (RenderFrame Symbolic.busy_frame Symbolic.world0))).
    + apply reachable_ctor.
    + vm_compute. reflexivity.
  - split; [exact Hle | exact Hslices].
Defined.

(** Two frames whose only shadow-mapped omni light differs in the
    projection of its camera: the cameras differ, the packed elements do
    not, and the pass does the same in both. *)
Lemma shadow_pass_effects_witness :
  cameras_of Omni (Symbolic.lamp_frame (Symbolic.Mat 208))
  ≠ cameras_of Omni (Symbolic.lamp_frame (Symbolic.Mat 999))
  ∧ ProcessLightsWithShadowMapping Omni (Symbolic.lamp_frame (Symbolic.Mat 999))
      Symbolic.world0
    = ProcessLightsWithShadowMapping Omni (Symbolic.lamp_frame (Symbolic.Mat 208))
        Symbolic.world0.
Proof.
  split; [vm_compute; discriminate|].
  destruct (shadow_pass_effects Omni (Symbolic.lamp_frame (Symbolic.Mat 208))
              Symbolic.world0
              (fst (ProcessLightsWithShadowMapping Omni
                      (Symbolic.lamp_frame (Symbolic.Mat 208)) Symbolic.world0))
              (snd (ProcessLightsWithShadowMapping Omni
                      (Symbolic.lamp_frame (Symbolic.Mat 208)) Symbolic.world0)))
    as (_ & _ & _ & _ & Hsame).
  { vm_compute. reflexivity. }
  rewrite (Hsame (Symbolic.lamp_frame (Symbolic.Mat 999))) by reflexivity.
  vm_compute. reflexivity.
Defined.

(** * Further properties at work *)

Lemma omni_cameras_aligned_witness :
  snd (ProcessLightsWithShadowMapping_omni_loop
         [Symbolic.lamp 8 false; Symbolic.lamp 9 true; Symbolic.lamp 10 false]
         (Symbolic.Mat 1000) (Symbolic.Mat 1001) (Symbolic.Mat 1002)) !! 11
  = Some (cube_face_camera (Symbolic.lamp 10 false) (Symbolic.RotationY Symbolic.Pi)).
Proof.
  refine (proj2 (omni_cameras_aligned
                   [Symbolic.lamp 8 false; Symbolic.lamp 9 true; Symbolic.lamp 10 false]
                   (Symbolic.Mat 1000) (Symbolic.Mat 1001) (Symbolic.Mat 1002)
                   1 (Symbolic.lamp 10 false) 5 (Symbolic.RotationY Symbolic.Pi) _ _));
    reflexivity.
Defined.

Lemma frame_within_capacity_witness :
  same_shadow_maps Omni Symbolic.pass0
    (pass (snd (RenderFrame Symbolic.dark_frame Symbolic.exhausted_world0))).
Proof.
  refine (proj1 (frame_within_capacity Symbolic.dark_frame Symbolic.exhausted_world0
                   (Returned tt)
                   (snd (RenderFrame Symbolic.dark_frame Symbolic.exhausted_world0))
                   _ _) Omni).
  - intros []; vm_compute; lia.
  - vm_compute. reflexivity.
Defined.

Lemma frame_that_throws_witness :
  ConstantBuffer_copies
    (m_light_buffer
       (pass (snd (RenderFrame Symbolic.busy_frame Symbolic.exhausted_bound_world0))))
  = []
  ∧ bound_cbuffer PS
      (context (snd (RenderFrame Symbolic.busy_frame Symbolic.exhausted_bound_world0))) 2
    = Some 1.
Proof.
  destruct (frame_that_throws Symbolic.busy_frame Symbolic.exhausted_bound_world0
              ResourceCreationFailed
              (snd (RenderFrame Symbolic.busy_frame Symbolic.exhausted_bound_world0)))
    as (Hcopies & Hslots).
  { vm_compute. reflexivity. }
  split; [exact Hcopies | exact (proj1 (Hslots PS 2))].
Defined.

Lemma frame_capacity_witness :
  nb_available Omni (pass (snd (RenderFrame Symbolic.busy_frame Symbolic.world0)))
  = Nat.max (nb_available Omni Symbolic.pass0) (nb_requested Omni Symbolic.busy_frame).
Proof.
  destruct (frame_capacity Symbolic.busy_frame Symbolic.world0 (Returned tt)
              (snd (RenderFrame Symbolic.busy_frame Symbolic.world0)))
    as [_ Hcap].
  { vm_compute. reflexivity. }
  exact (proj1 (Hcap eq_refl Omni)).
Defined.

Lemma packed_lights_have_views_witness :
  ∃ dsv,
    GetDSV Omni (pass (snd (RenderFrame Symbolic.busy_frame Symbolic.world0))) 11
    = Some dsv
    ∧ BindDSV Omni (pass (snd (RenderFrame Symbolic.busy_frame Symbolic.world0))) 11
      = Some (OM_BindRTVAndDSV None dsv)
    ∧ ClearDSVs Omni (pass (snd (RenderFrame Symbolic.busy_frame Symbolic.world0))) !! 11
      = Some (OM_ClearDepthOfDSV dsv).
Proof.
  apply (packed_lights_have_views Symbolic.busy_frame Symbolic.world0).
  - vm_compute. reflexivity.
  - vm_compute. lia.
Defined.

Lemma light_buffer_of_frame_witness :
  cb_accesses
    (m_light_buffer (pass (snd (RenderFrame Symbolic.busy_frame Symbolic.world0))))
  = [ Locked D3D11_MAP_WRITE_DISCARD; Unlocked;
      Copied (frame_light_buffer Symbolic.busy_frame) ].
Proof.
  rewrite (proj1 (proj2 (light_buffer_of_frame Symbolic.busy_frame Symbolic.world0
                           (snd (RenderFrame Symbolic.busy_frame Symbolic.world0))
                           ltac:(vm_compute; reflexivity)))).
  reflexivity.
Defined.

Lemma frame_binds_only_its_slots_witness :
  bound_srv PS (context (snd (RenderFrame Symbolic.busy_frame Symbolic.world0))) 13
  = bound_srv PS Symbolic.context0 13
  ∧ bound_cbuffer CS (context (snd (RenderFrame Symbolic.busy_frame Symbolic.world0))) 3
    = bound_cbuffer CS Symbolic.context0 3.
Proof.
  split.
  - apply (proj1 (frame_binds_only_its_slots Symbolic.busy_frame Symbolic.world0
                    (Returned tt)
                    (snd (RenderFrame Symbolic.busy_frame Symbolic.world0)) PS 13
                    ltac:(vm_compute; reflexivity)));
      unfold in_slots; cbn; lia.
  - apply (proj2 (frame_binds_only_its_slots Symbolic.busy_frame Symbolic.world0
                    (Returned tt)
                    (snd (RenderFrame Symbolic.busy_frame Symbolic.world0)) CS 3
                    ltac:(vm_compute; reflexivity))).
    cbn. lia.
Defined.

Lemma light_buffer_never_replaced_witness :
  ConstantBuffer_Get
    (m_light_buffer (pass (snd (RenderFrame Symbolic.busy_frame Symbolic.world0))))
  = ConstantBuffer_Get (m_light_buffer Symbolic.pass0).
Proof.
  apply light_buffer_never_replaced.
  apply (reachable_Render _ Symbolic.world0 Symbolic.busy_frame
           (fst (RenderFrame Symbolic.busy_frame Symbolic.world0))).
  - apply reachable_ctor.
  - vm_compute. reflexivity.
Defined.

Lemma same_frame_again_witness :
  same_shadow_maps Omni
    (pass (snd (RenderFrame Symbolic.busy_frame Symbolic.world0)))
    (pass (snd (RenderFrame Symbolic.busy_frame
                  (snd (RenderFrame Symbolic.busy_frame Symbolic.world0))))).
Proof.
  refine (proj1 (same_frame_again Symbolic.busy_frame Symbolic.world0
                   (snd (RenderFrame Symbolic.busy_frame Symbolic.world0))
                   (Returned tt)
                   (snd (RenderFrame Symbolic.busy_frame
                           (snd (RenderFrame Symbolic.busy_frame Symbolic.world0))))
                   _ _) Omni); vm_compute; reflexivity.
Defined.
